(** * MyDefiProject: a Compound-facing lending vault

    The contract [MyDefiProject] (Solidity 0.7.3) forwards supply, redeem,
    enter-market, borrow and repay requests of one account to a Compound
    market and derives the maximum borrow from the comptroller's liquidity
    figure and the oracle's price.

    The contract is embedded as a program over the external calls it makes
    (a free monad over the call signature).  The lending market, the
    comptroller, the price oracle and the ERC-20 token are other contracts:
    they are a parameter of the semantics, a handler which answers each call
    and may change its own state, or reverts. *)

From Stdlib Require Import NArith ZArith List String Bool Lia.
From Stdlib Require Import QArith Qminmax Lqa.
Import ListNotations.

Local Open Scope string_scope.
Local Open Scope list_scope.
Local Open Scope N_scope.

(** ** Values *)

(** [address] is a 160-bit and [uint] a 256-bit unsigned integer.  The only
    arithmetic the contract performs on a [uint] is one division, which
    cannot leave the range (lemma [div_in_range] below), so no wrap-around
    occurs anywhere in the contract. *)
Definition address := N.
Definition uint := N.
Definition uint_max : N := 2 ^ 256 - 1.

(** ** External calls *)

(** One constructor per method the contract calls on another contract; the
    first argument is the callee. *)
Inductive Call : Type :=
| CToken_underlying (cToken : address)
| IERC20_approve (token spender : address) (amount : uint)
| CToken_mint (cToken : address) (mintAmount : uint)
| CToken_redeem (cToken : address) (redeemTokens : uint)
| Comptroller_enterMarkets (comptroller : address) (cTokens : list address)
| CToken_borrow (cToken : address) (borrowAmount : uint)
| CToken_repayBorrow (cToken : address) (repayAmount : uint)
| Comptroller_getAccountLiquidity (comptroller account : address)
| PriceOracle_getUnderlyingPrice (oracle cToken : address).

(** What each call returns. *)
Definition Resp (c : Call) : Type :=
  match c with
  | CToken_underlying _ => address
  | IERC20_approve _ _ _ => bool
  | CToken_mint _ _ => uint
  | CToken_redeem _ _ => uint
  | Comptroller_enterMarkets _ _ => list uint
  | CToken_borrow _ _ => uint
  | CToken_repayBorrow _ _ => uint
  | Comptroller_getAccountLiquidity _ _ => (uint * uint * uint)%type
  | PriceOracle_getUnderlyingPrice _ _ => uint
  end.

(** The calls that change the state of the lending market (a cToken or the
    comptroller).  [underlying], [getAccountLiquidity] and
    [getUnderlyingPrice] are views; [approve] goes to the token. *)
Definition market_mutation (c : Call) : bool :=
  match c with
  | CToken_mint _ _ | CToken_redeem _ _ | Comptroller_enterMarkets _ _
  | CToken_borrow _ _ | CToken_repayBorrow _ _ => true
  | _ => false
  end.

Definition liquidity_query (c : Call) : bool :=
  match c with
  | Comptroller_getAccountLiquidity _ _ => true
  | _ => false
  end.

(** ** Programs *)

(** How a call of a contract function can fail. *)
Inductive Failure : Type :=
| RequireFailed (reason : string)   (* require(cond, reason) with cond false *)
| DivisionByZero                    (* x / 0: a failing assert in 0.7 *)
| CalleeReverted (c : Call).        (* the called contract reverted *)

Inductive Prog (A : Type) : Type :=
| Ret (a : A)
| Abort (f : Failure)
| Ext (c : Call) (k : Resp c -> Prog A).

Arguments Ret {A} a.
Arguments Abort {A} f.
Arguments Ext {A} c k.

Fixpoint bind {A B : Type} (p : Prog A) (f : A -> Prog B) : Prog B :=
  match p with
  | Ret a => f a
  | Abort e => Abort e
  | Ext c k => Ext c (fun r => bind (k r) f)
  end.

Definition call (c : Call) : Prog (Resp c) := Ext c Ret.

Notation "x <- p ;; q" := (bind p (fun x => q))
  (at level 61, p at next level, right associativity).
Notation "' pat <- p ;; q" := (bind p (fun x => match x with pat => q end))
  (at level 61, pat pattern, p at next level, right associativity).
Notation "p ;;; q" := (bind p (fun _ => q))
  (at level 61, right associativity).

Definition require (cond : bool) (reason : string) : Prog unit :=
  if cond then Ret tt else Abort (RequireFailed reason).

(** Solidity's [/] on [uint]. *)
Definition div (a b : uint) : Prog uint :=
  if b =? 0 then Abort DivisionByZero else Ret (a / b).

(** ** Running a program against the other contracts *)

Inductive Outcome (A : Type) : Type :=
| Returned (a : A)
| Failed (f : Failure).

Arguments Returned {A} a.
Arguments Failed {A} f.

Section Semantics.

(** The state of the other contracts and how they answer: [None] is a
    revert of the callee. *)
Variable W : Type.
Variable handle : forall c : Call, W -> option (Resp c * W).

(** The outcome, the calls issued (in order) and the callees' state. *)
Fixpoint exec {A : Type} (p : Prog A) (w : W) : Outcome A * list Call * W :=
  match p with
  | Ret a => (Returned a, [], w)
  | Abort f => (Failed f, [], w)
  | Ext c k =>
      match handle c w with
      | None => (Failed (CalleeReverted c), [c], w)
      | Some (r, w') =>
          let '(o, tr, w'') := exec (k r) w' in (o, c :: tr, w'')
      end
  end.

Definition outcome {A} (p : Prog A) (w : W) : Outcome A := fst (fst (exec p w)).
Definition calls {A} (p : Prog A) (w : W) : list Call := snd (fst (exec p w)).

(** A transaction: a failure rolls every state change back. *)
Definition transact {A} (p : Prog A) (w : W) : Outcome A * W :=
  match exec p w with
  | (Returned a, _, w') => (Returned a, w')
  | (Failed f, _, _) => (Failed f, w)
  end.

End Semantics.

Arguments exec {W} handle {A} p w.
Arguments outcome {W} handle {A} p w.
Arguments calls {W} handle {A} p w.
Arguments transact {W} handle {A} p w.

(** ** The contract *)

Module MyDefiProject.

(** The two state variables, set by the constructor and never written
    again. *)
Record Storage : Type := {
  comptroller : address;
  priceOracle : address
}.

Definition constructor (_comptroller _priceOracle : address) : Storage :=
  {| comptroller := _comptroller; priceOracle := _priceOracle |}.

Section Functions.

Variable this : address.          (* address(this) *)
Variable st : Storage.

Definition supply (cTokenAddress : address) (underlyingAmount : uint)
  : Prog unit :=
  underlyingAddress <- call (CToken_underlying cTokenAddress) ;;
  call (IERC20_approve underlyingAddress cTokenAddress underlyingAmount) ;;;
  result <- call (CToken_mint cTokenAddress underlyingAmount) ;;
  require (result =? 0)
    "cToken#mint failed. See Compound ErrorReporter.sol for more details".

(** The source declares the second parameter without a type
    ([cTokenAmount]); it is the argument of [CTokenInterface.redeem],
    a [uint]. *)
Definition redeem (cTokenAddress : address) (cTokenAmount : uint)
  : Prog unit :=
  result <- call (CToken_redeem cTokenAddress cTokenAmount) ;;
  require (result =? 0)
    "cTokenRedeem() failed. See Compound ErrorReporter.sol for more details".

Definition borrow (cTokenAddress : address) (borrowAmount : uint)
  : Prog unit :=
  underlyingAddress <- call (CToken_underlying cTokenAddress) ;;
  result <- call (CToken_borrow cTokenAddress borrowAmount) ;;
  require (result =? 0)
    "cToken#borrow() failed. See Compound ErrorReporter.sol for more details".

Definition getMaxBorrow (cTokenAddress : address) : Prog uint :=
  '(result, liquidity, shortfall) <-
     call (Comptroller_getAccountLiquidity (comptroller st) this) ;;
  require (result =? 0)
    "comptroller#getAccountLiquidity() failed. See Compound ErrorReporter.sol for more details" ;;;
  require (shortfall =? 0) "account underwater" ;;;
  require (0 <? liquidity) "account does not have collateral" ;;;
  underlyingPrice <-
     call (PriceOracle_getUnderlyingPrice (priceOracle st) cTokenAddress) ;;
  div liquidity underlyingPrice.

(** In [enterMarket] and [repayBorrow] the [require] tests an identifier
    [result] that neither function declares and that is no state
    variable: [enterMarket] binds the answer to [results], [repayBorrow]
    to [reault].  The embedding keeps the bodies as written and leaves
    the unbound name a parameter, so nothing is assumed about the value
    it denotes. *)
Section UnboundResult.

Variable result : uint.

Definition enterMarket (cTokenAddress : address) : Prog unit :=
  let markets := [cTokenAddress] in
  results <- call (Comptroller_enterMarkets (comptroller st) markets) ;;
  require (result =? 0)
    "comptroller#enterMarket() failed. See Compound ErrorReporter.sol for more details".

Definition repayBorrow (cTokenAddress : address) (underlyingAmount : uint)
  : Prog unit :=
  underlyingAddress <- call (CToken_underlying cTokenAddress) ;;
  call (IERC20_approve underlyingAddress cTokenAddress underlyingAmount) ;;;
  reault <- call (CToken_repayBorrow cTokenAddress underlyingAmount) ;;
  require (result =? 0)
    "cToken#repayBorrow() failed. See Compound ErrorReporter.sol for more details".

End UnboundResult.

End Functions.

End MyDefiProject.

(** ** A reference lending pool

    One market, one account: the environment of the worked examples below.
    It follows Compound's behaviour in what the examples need: a mutation is
    declined with a non-zero code when the market is not fresh (10), when the
    comptroller rejects it for lack of collateral (3), on a balance
    underflow (9) or when the pool lacks cash (14); repaying more than is
    owed reverts.  Receipt shares trade one to one for the underlying.  The
    general theorems do not depend on it: they hold for every environment. *)

Module Pool.

Record State : Type := {
  market : address;        (* the cToken of this pool *)
  underlyingToken : address;
  price : uint;            (* oracle price of the underlying *)
  collateralPct : uint;    (* collateral factor, in percent *)
  supplied : uint;         (* supplied balance, entered as collateral *)
  borrowed : uint;         (* outstanding borrow *)
  cash : uint;             (* underlying the pool can pay out *)
  fresh : bool             (* interest accrued up to the current block *)
}.

Definition collateral (s : State) : uint :=
  supplied s * price s * collateralPct s / 100.
Definition debt (s : State) : uint := borrowed s * price s.
Definition liquidity (s : State) : uint := collateral s - debt s.
Definition shortfall (s : State) : uint := debt s - collateral s.

Definition with_supplied (v : uint) (s : State) : State :=
  {| market := market s;
     underlyingToken := underlyingToken s; price := price s;
     collateralPct := collateralPct s; supplied := v;
     borrowed := borrowed s; cash := cash s; fresh := fresh s |}.
Definition with_borrowed (v : uint) (s : State) : State :=
  {| market := market s;
     underlyingToken := underlyingToken s; price := price s;
     collateralPct := collateralPct s; supplied := supplied s;
     borrowed := v; cash := cash s; fresh := fresh s |}.
Definition with_cash (v : uint) (s : State) : State :=
  {| market := market s;
     underlyingToken := underlyingToken s; price := price s;
     collateralPct := collateralPct s; supplied := supplied s;
     borrowed := borrowed s; cash := v; fresh := fresh s |}.

(** A mutation the market accepts in state [s], or the code it declines
    with; [None] is a revert. *)
Definition mint (amt : uint) (s : State) : option (uint * State) :=
  if negb (fresh s) then Some (10, s)
  else Some (0, with_cash (cash s + amt)
                  (with_supplied (supplied s + amt) s)).

Definition redeem (amt : uint) (s : State) : option (uint * State) :=
  if negb (fresh s) then Some (10, s)
  else if supplied s <? amt then Some (9, s)
  else if collateral (with_supplied (supplied s - amt) s) <? debt s
       then Some (3, s)
  else if cash s <? amt then Some (14, s)
  else Some (0, with_cash (cash s - amt)
                  (with_supplied (supplied s - amt) s)).

Definition borrow (amt : uint) (s : State) : option (uint * State) :=
  if negb (fresh s) then Some (10, s)
  else if (0 <? shortfall s) || (liquidity s <? amt * price s)
       then Some (3, s)
  else if cash s <? amt then Some (14, s)
  else Some (0, with_cash (cash s - amt)
                  (with_borrowed (borrowed s + amt) s)).

Definition repayBorrow (amt : uint) (s : State) : option (uint * State) :=
  if negb (fresh s) then Some (10, s)
  else if borrowed s <? amt then None
  else Some (0, with_cash (cash s + amt)
                  (with_borrowed (borrowed s - amt) s)).

(** A call to an address that is not the pool's cToken reverts; the
    comptroller reports 9 (market not listed) for such an address and the
    oracle has price 0 for it. *)
Definition at_market {A : Type} (c : address) (s : State) (r : option A)
  : option A :=
  if c =? market s then r else None.

Definition handle (c : Call) (s : State) : option (Resp c * State) :=
  match c as c0 return option (Resp c0 * State) with
  | CToken_underlying c => at_market c s (Some (underlyingToken s, s))
  | IERC20_approve _ _ _ => Some (true, s)
  | CToken_mint c amt => at_market c s (mint amt s)
  | CToken_redeem c amt => at_market c s (redeem amt s)
  | Comptroller_enterMarkets _ ms =>
      Some (map (fun c => if c =? market s then 0 else 9) ms, s)
  | CToken_borrow c amt => at_market c s (borrow amt s)
  | CToken_repayBorrow c amt => at_market c s (repayBorrow amt s)
  | Comptroller_getAccountLiquidity _ _ =>
      Some ((0, liquidity s, shortfall s), s)
  | PriceOracle_getUnderlyingPrice _ c =>
      Some (if c =? market s then price s else 0, s)
  end.

(** The same pool on a day the price moves: after every call the oracle
    price of the underlying is one unit higher. *)
Definition with_price (v : uint) (s : State) : State :=
  {| market := market s; underlyingToken := underlyingToken s; price := v;
     collateralPct := collateralPct s; supplied := supplied s;
     borrowed := borrowed s; cash := cash s; fresh := fresh s |}.

Definition drifting (c : Call) (s : State) : option (Resp c * State) :=
  match handle c s with
  | Some (r, s') => Some (r, with_price (price s' + 1) s')
  | None => None
  end.

End Pool.

(** Addresses used in the examples. *)
Definition vault : address := 0xA1.
Definition unitroller : address := 0xC0.
Definition feed : address := 0xF0.
Definition cDAI : address := 0xCD.
Definition DAI : address := 0xDA.
Definition cETH : address := 0xCE.

Definition deployed : MyDefiProject.Storage :=
  MyDefiProject.constructor unitroller feed.

(** 1000 DAI supplied at price 1 and collateral factor 75%: liquidity 750. *)
Definition funded : Pool.State :=
  {| Pool.market := cDAI;
     Pool.underlyingToken := DAI; Pool.price := 1; Pool.collateralPct := 75;
     Pool.supplied := 1000; Pool.borrowed := 0; Pool.cash := 5000;
     Pool.fresh := true |}.

(** The same account with 300 DAI borrowed (liquidity 450), with 800 DAI
    borrowed (shortfall 50) and with 40 DAI borrowed. *)
Definition leveraged : Pool.State := Pool.with_borrowed 300 funded.
Definition underwater : Pool.State := Pool.with_borrowed 800 funded.
Definition owing : Pool.State := Pool.with_borrowed 40 funded.

(** An account that has supplied nothing: no liquidity, no shortfall. *)
Definition bare : Pool.State := Pool.with_supplied 0 funded.

(** The pool short of cash: only 100 DAI can be paid out. *)
Definition drained : Pool.State := Pool.with_cash 100 funded.
Definition indebted : Pool.State := Pool.with_cash 100 leveraged.

(** The market before interest has been accrued for the current block: it
    declines every mutation with code 10. *)
Definition stale : Pool.State :=
  {| Pool.market := cDAI;
     Pool.underlyingToken := DAI; Pool.price := 1; Pool.collateralPct := 75;
     Pool.supplied := 1000; Pool.borrowed := 40; Pool.cash := 5000;
     Pool.fresh := false |}.

(** Two max-borrow queries in a row. *)
Definition queryTwice (this : address) (st : MyDefiProject.Storage)
  (cTokenAddress : address) : Prog (uint * uint) :=
  a <- MyDefiProject.getMaxBorrow this st cTokenAddress ;;
  b <- MyDefiProject.getMaxBorrow this st cTokenAddress ;;
  Ret (a, b).

(** ** The position ledger and the account snapshot *)

Module Ledger.

(** Modelled from the spec: the data model of the position ledger (the
    sources hold no ledger of their own).  An asset of the registry has a
    symbol, decimals and the fraction of its supplied value that counts
    toward borrow capacity. *)
Record Asset : Type := {
  symbol : string;
  decimals : N;
  collateralFactor : Q
}.

(** Modelled from the spec: one account's position in one asset (section 3),
    in the asset's smallest unit; [isCollateral] is the entered-market flag
    of section 9.  Receipt shares and the exchange rate only determine the
    supplied amount and are left with the market. *)
Record AccountPosition : Type := {
  asset : Asset;
  suppliedAmount : N;
  borrowedAmount : N;
  isCollateral : bool
}.

(** Modelled from the spec: the aggregate over all assets of one account
    (section 3), in the common value unit. *)
Record AccountSnapshot : Type := {
  totalCollateralValue : Q;
  totalBorrowValue : Q;
  liquidity : Q;
  shortfall : Q
}.

(** Modelled from the spec: a collateral factor lies in [0,1). *)
Definition well_formed (p : AccountPosition) : Prop :=
  (0 <= collateralFactor (asset p) /\ collateralFactor (asset p) < 1)%Q.

Definition sumQ (l : list Q) : Q := fold_right Qplus 0%Q l.

Section Snapshot.

(** The oracle: unit price of an asset, a fixed-point number. *)
Variable price : Asset -> N.

(** Value of an amount, in the common unit price x amount. *)
Definition value (a : Asset) (amount : N) : Q :=
  inject_Z (Z.of_N (amount * price a)).

(** Supplied value that is entered as collateral. *)
Definition collateralValue (p : AccountPosition) : Q :=
  if isCollateral p then value (asset p) (suppliedAmount p) else 0%Q.

Definition weightedCollateral (p : AccountPosition) : Q :=
  (collateralValue p * collateralFactor (asset p))%Q.

Definition borrowValue (p : AccountPosition) : Q :=
  value (asset p) (borrowedAmount p).

Definition open (p : AccountPosition) : bool :=
  negb (suppliedAmount p =? 0) || negb (borrowedAmount p =? 0).

(** Modelled from the spec: [PositionLedger.snapshot] is not in the
    sources, which only read the comptroller's liquidity and shortfall.
    For each position with non-zero supplied or borrowed amount,
    accumulate collateral value (supplied x price x collateral-factor,
    only for entered assets) and borrow value (borrowed x price);
    liquidity = max(collateral - borrow, 0), shortfall =
    max(borrow - collateral, 0). *)
Definition snapshot (ps : list AccountPosition) : AccountSnapshot :=
  let live := filter open ps in
  let c := sumQ (map weightedCollateral live) in
  let b := sumQ (map borrowValue live) in
  {| totalCollateralValue := c;
     totalBorrowValue := b;
     liquidity := Qmax (c - b) 0;
     shortfall := Qmax (b - c) 0 |}.

End Snapshot.

Definition credit (amount : N) (p : AccountPosition) : AccountPosition :=
  {| asset := asset p;
     suppliedAmount := suppliedAmount p + amount;
     borrowedAmount := borrowedAmount p;
     isCollateral := isCollateral p |}.

Definition holds (a : Asset) (p : AccountPosition) : bool :=
  String.eqb (symbol (asset p)) (symbol a).

(** Modelled from the spec: the market's [supply] is not in the sources.
    It transfers [amount] of underlying in, and the position of that asset
    is overwritten from the post-call snapshot: its supplied amount grows
    by [amount]; an asset the account had not touched gets a position that
    is not yet entered as collateral. *)
Definition applySupply (a : Asset) (amount : N) (ps : list AccountPosition)
  : list AccountPosition :=
  if existsb (holds a) ps
  then map (fun p => if holds a p then credit amount p else p) ps
  else ps ++ [{| asset := a; suppliedAmount := amount;
                 borrowedAmount := 0; isCollateral := false |}].

End Ledger.

(** The scenario of the specification: asset A with collateral factor 0.75
    and price 1.00, 1000 A supplied and entered. *)
Definition assetA : Ledger.Asset :=
  {| Ledger.symbol := "A"; Ledger.decimals := 0;
     Ledger.collateralFactor := (3 # 4)%Q |}.
Definition parPrice (_ : Ledger.Asset) : N := 1.
Definition book : list Ledger.AccountPosition :=
  [{| Ledger.asset := assetA; Ledger.suppliedAmount := 1000;
      Ledger.borrowedAmount := 0; Ledger.isCollateral := true |}].

(** ** The HTTP client of the Compound API

    [account], [cToken], [marketHistory] and [governance] post the caller's
    options to one endpoint each through [queryApi], which turns the HTTP
    response into the settlement of a promise.  The transport
    ([util.request]) and [JSON.parse] are parameters. *)

Module Api.

Section Client.

(** The request parameters and the parsed response body are JavaScript
    objects the client only passes on. *)
Variable Options Json : Type.

(** The object handed to [util.request]; [payload] is its [body]. *)
Record Request : Type := {
  hostname : string;
  path : string;
  method : string;
  headers : list (string * string);
  payload : Options
}.

Record Response : Type := {
  status : Z;
  statusText : string;
  body : string
}.

(** A thrown value or rejection reason, as the handler looks at it:
    [error.name] and [error.toString()].  On [null] and [undefined] the
    property access itself throws. *)
Inductive Reason : Type :=
| Nullish
| Thrown (name : option string) (text : string).

(** The promise [util.request] returns. *)
Inductive RequestState : Type :=
| Fulfilled (response : Response)
| Broken (error : Reason)
| Unsettled.

(** The object [queryApi] rejects with; a field is [None] where the
    variable is still [undefined]. *)
Record Rejection : Type := {
  error : string;
  responseCode : option Z;
  responseMessage : option string
}.

(** The promise [queryApi] returns. *)
Inductive Promise : Type :=
| Resolved (responseBody : Json)
| Rejected (r : Rejection)
| Pending.

Variable request : Request -> RequestState.

(** [JSON.parse]: the value, or the string form of the [SyntaxError] it
    throws. *)
Variable parse : string -> Json + string.

(** The [catch] handler.  On a nullish reason reading [error.name] throws
    inside the handler, so [reject] is never called. *)
Definition onRejected (errorPrefix : string) (responseCode : option Z)
  (responseMessage : option string) (error : Reason) : Promise :=
  match error with
  | Nullish => Pending
  | Thrown name text =>
      let errorMessage :=
        match name with
        | Some n =>
            if String.eqb n "SyntaxError"
            then (errorPrefix ++ "Unable to parse response body.")%string
            else (errorPrefix ++ text)%string
        | None => (errorPrefix ++ text)%string
        end in
      Rejected {| error := errorMessage;
                  responseCode := responseCode;
                  responseMessage := responseMessage |}
  end.

Definition queryApi (options : Options) (name path : string) : Promise :=
  let errorPrefix := ("Compound [api] [" ++ name ++ "] | ")%string in
  match request {| hostname := "https://api.compound.finance";
                   path := path;
                   method := "POST";
                   headers := [("Content-type", "application/json")];
                   payload := options |} with
  | Unsettled => Pending
  | Broken error => onRejected errorPrefix None None error
  | Fulfilled response =>
      let responseCode := status response in
      let responseMessage := statusText response in
      match parse (body response) with
      | inr text =>
          onRejected errorPrefix (Some responseCode) (Some responseMessage)
            (Thrown (Some "SyntaxError") text)
      | inl responseBody =>
          if ((200 <=? responseCode) && (responseCode <=? 299))%Z
          then Resolved responseBody
          else onRejected errorPrefix (Some responseCode)
                 (Some responseMessage)
                 (Thrown None "Invalid request made to the Compound API.")
      end
  end.

Definition account (options : Options) : Promise :=
  queryApi options "account" "/api/v2/account".

Definition cToken (options : Options) : Promise :=
  queryApi options "cToken" "/api/v2/ctoken".

Definition marketHistory (options : Options) : Promise :=
  queryApi options "Market History" "/api/v2/market_history/graph".

Definition governance (options : Options) (endpoint : string) : Promise :=
  let endpoint :=
    if String.eqb endpoint "proposals"
    then "/api/v2/governance/proposals"
    else if String.eqb endpoint "voteReceipts"
    then "/api/v2/governance/proposal_vote_receipts"
    else "/api/v2/governance/accounts" in
  queryApi options "GovernanceService" endpoint.

End Client.

Arguments hostname {Options} r.
Arguments path {Options} r.
Arguments method {Options} r.
Arguments headers {Options} r.
Arguments payload {Options} r.
Arguments Pending {Json}.
Arguments onRejected {Json} errorPrefix responseCode responseMessage error.
Arguments queryApi {Options Json} request parse options name path.
Arguments account {Options Json} request parse options.
Arguments cToken {Options Json} request parse options.
Arguments marketHistory {Options Json} request parse options.
Arguments governance {Options Json} request parse options endpoint.
Arguments Resolved {Json} responseBody.
Arguments Rejected {Json} r.

End Api.

(** The request [queryApi] sends for a path, and the prefix of its error
    messages for a service name. *)
Definition apiRequest {Options : Type} (options : Options) (path : string)
  : Api.Request Options :=
  {| Api.hostname := "https://api.compound.finance";
     Api.path := path;
     Api.method := "POST";
     Api.headers := [("Content-type", "application/json")];
     Api.payload := options |}.

Definition errorPrefix (name : string) : string :=
  ("Compound [api] [" ++ name ++ "] | ")%string.

(** A server for the examples: it answers the account endpoint with an empty
    JSON object, the cToken endpoint with an error page and the governance
    accounts endpoint with status 404 and a JSON body, is unreachable for
    the market history and rejects everything else without a reason.  The
    parser of the examples accepts every text but the error page. *)
Definition demoServer (r : Api.Request unit) : Api.RequestState :=
  if String.eqb (Api.path r) "/api/v2/account"
  then Api.Fulfilled
         {| Api.status := 200%Z; Api.statusText := "OK"; Api.body := "{}" |}
  else if String.eqb (Api.path r) "/api/v2/ctoken"
  then Api.Fulfilled
         {| Api.status := 502%Z; Api.statusText := "Bad Gateway";
            Api.body := "<html>" |}
  else if String.eqb (Api.path r) "/api/v2/market_history/graph"
  then Api.Broken (Api.Thrown (Some "Error") "Error: connect ECONNREFUSED")
  else if String.eqb (Api.path r) "/api/v2/governance/accounts"
  then Api.Fulfilled
         {| Api.status := 404%Z; Api.statusText := "Not Found";
            Api.body := "null" |}
  else Api.Broken Api.Nullish.

Definition demoParse (text : string) : string + string :=
  if String.eqb text "<html>"
  then inr "SyntaxError: Unexpected token < in JSON at position 0"
  else inl text.

Import MyDefiProject.

(** The reasons the contract reverts with. *)
Definition mint_failed : string :=
  "cToken#mint failed. See Compound ErrorReporter.sol for more details".
Definition redeem_failed : string :=
  "cTokenRedeem() failed. See Compound ErrorReporter.sol for more details".
Definition enterMarket_failed : string :=
  "comptroller#enterMarket() failed. See Compound ErrorReporter.sol for more details".
Definition borrow_failed : string :=
  "cToken#borrow() failed. See Compound ErrorReporter.sol for more details".
Definition underwater_reason : string := "account underwater".
Definition no_collateral_reason : string := "account does not have collateral".
Definition repayBorrow_failed : string :=
  "cToken#repayBorrow() failed. See Compound ErrorReporter.sol for more details".
Definition getAccountLiquidity_failed : string :=
  "comptroller#getAccountLiquidity() failed. See Compound ErrorReporter.sol for more details".

(** The verdict of a [require (code == 0, reason)]. *)
Definition checked (code : uint) (reason : string) : Outcome unit :=
  if code =? 0 then Returned tt else Failed (RequireFailed reason).

(** The five requests that change the market, as the contract serves them. *)
Definition requests (st : Storage) (result : uint) (c : address) (amt : uint)
  : list (Prog unit) :=
  [supply c amt; redeem c amt; enterMarket st result c; borrow c amt;
   repayBorrow result c amt].

(** The calls that read and change nothing. *)
Definition view (c : Call) : bool :=
  match c with
  | CToken_underlying _ | Comptroller_getAccountLiquidity _ _
  | PriceOracle_getUnderlyingPrice _ _ => true
  | _ => false
  end.

(** A call that concerns the market [c] and, where it has an amount, the
    amount [amt]; the token of an [approve] is whatever the market named. *)
Definition carries (comptroller c : address) (amt : uint) (k : Call) : Prop :=
  match k with
  | CToken_underlying c' => c' = c
  | IERC20_approve _ spender amount => spender = c /\ amount = amt
  | CToken_mint c' amount | CToken_redeem c' amount
  | CToken_borrow c' amount | CToken_repayBorrow c' amount =>
      c' = c /\ amount = amt
  | Comptroller_enterMarkets t cs => t = comptroller /\ cs = [c]
  | Comptroller_getAccountLiquidity _ _
  | PriceOracle_getUnderlyingPrice _ _ => False
  end.

(** The reference pool with a token whose [approve] reports failure by
    returning false instead of reverting. *)
Definition unapproving (c : Call) (s : Pool.State)
  : option (Resp c * Pool.State) :=
  match c as c0 return option (Resp c0 * Pool.State) with
  | IERC20_approve _ _ _ => Some (false, s)
  | c0 => Pool.handle c0 s
  end.

(** The reference pool behind a comptroller that cannot price the
    account's assets: it answers the liquidity query with code 13. *)
Definition priceless (c : Call) (s : Pool.State)
  : option (Resp c * Pool.State) :=
  match c as c0 return option (Resp c0 * Pool.State) with
  | Comptroller_getAccountLiquidity _ _ => Some ((13, 0, 0), s)
  | c0 => Pool.handle c0 s
  end.

(** A pool whose price is 7 and that has lent one unit: liquidity 5243. *)
Definition pricey : Pool.State :=
  Pool.with_borrowed 1 (Pool.with_price 7 funded).

(** * Properties *)

(** ** Running programs *)

Section ExecFacts.

Context {W : Type} (handle : forall c : Call, W -> option (Resp c * W)).

Lemma exec_bind {A B : Type} (p : Prog A) (f : A -> Prog B) (w : W) :
  exec handle (bind p f) w =
  match exec handle p w with
  | (Returned a, tr, w') =>
      let '(o, tr', w'') := exec handle (f a) w' in (o, tr ++ tr', w'')
  | (Failed e, tr, w') => (Failed e, tr, w')
  end.
Proof.
  revert w. induction p as [a | e | c k IH]; intros w; simpl.
  - destruct (exec handle (f a) w) as [[o tr] w']. reflexivity.
  - reflexivity.
  - destruct (handle c w) as [[r w1] |]; [ | reflexivity ].
    rewrite IH.
    destruct (exec handle (k r) w1) as [[[a | e] tr] w2]; [ | reflexivity ].
    destruct (exec handle (f a) w2) as [[o tr'] w3]. reflexivity.
Qed.

(** What each function of the contract does, call by call. *)

Lemma exec_supply (c : address) (amt : uint) (w : W) :
  exec handle (supply c amt) w =
  match handle (CToken_underlying c) w with
  | None => (Failed (CalleeReverted (CToken_underlying c)),
             [CToken_underlying c], w)
  | Some (u, w1) =>
      match handle (IERC20_approve u c amt) w1 with
      | None => (Failed (CalleeReverted (IERC20_approve u c amt)),
                 [CToken_underlying c; IERC20_approve u c amt], w1)
      | Some (_, w2) =>
          match handle (CToken_mint c amt) w2 with
          | None => (Failed (CalleeReverted (CToken_mint c amt)),
                     [CToken_underlying c; IERC20_approve u c amt;
                      CToken_mint c amt], w2)
          | Some (code, w3) =>
              (checked code mint_failed,
               [CToken_underlying c; IERC20_approve u c amt;
                CToken_mint c amt], w3)
          end
      end
  end.
Proof.
  unfold supply, checked; simpl.
  destruct (handle (CToken_underlying c) w) as [[u w1] |]; [ | reflexivity ].
  simpl.
  destruct (handle (IERC20_approve u c amt) w1) as [[ok w2] |];
    [ | reflexivity ].
  simpl.
  destruct (handle (CToken_mint c amt) w2) as [[code w3] |];
    [ | reflexivity ].
  simpl. destruct (code =? 0); reflexivity.
Qed.

Lemma exec_redeem (c : address) (amt : uint) (w : W) :
  exec handle (redeem c amt) w =
  match handle (CToken_redeem c amt) w with
  | None => (Failed (CalleeReverted (CToken_redeem c amt)),
             [CToken_redeem c amt], w)
  | Some (code, w1) =>
      (checked code redeem_failed, [CToken_redeem c amt], w1)
  end.
Proof.
  unfold redeem, checked; simpl.
  destruct (handle (CToken_redeem c amt) w) as [[code w1] |];
    [ | reflexivity ].
  simpl. destruct (code =? 0); reflexivity.
Qed.

Lemma exec_borrow (c : address) (amt : uint) (w : W) :
  exec handle (borrow c amt) w =
  match handle (CToken_underlying c) w with
  | None => (Failed (CalleeReverted (CToken_underlying c)),
             [CToken_underlying c], w)
  | Some (_, w1) =>
      match handle (CToken_borrow c amt) w1 with
      | None => (Failed (CalleeReverted (CToken_borrow c amt)),
                 [CToken_underlying c; CToken_borrow c amt], w1)
      | Some (code, w2) =>
          (checked code borrow_failed,
           [CToken_underlying c; CToken_borrow c amt], w2)
      end
  end.
Proof.
  unfold borrow, checked; simpl.
  destruct (handle (CToken_underlying c) w) as [[u w1] |]; [ | reflexivity ].
  simpl.
  destruct (handle (CToken_borrow c amt) w1) as [[code w2] |];
    [ | reflexivity ].
  simpl. destruct (code =? 0); reflexivity.
Qed.

Lemma exec_enterMarket (st : Storage) (result : uint) (c : address) (w : W) :
  exec handle (enterMarket st result c) w =
  match handle (Comptroller_enterMarkets (comptroller st) [c]) w with
  | None =>
      (Failed (CalleeReverted (Comptroller_enterMarkets (comptroller st) [c])),
       [Comptroller_enterMarkets (comptroller st) [c]], w)
  | Some (_, w1) =>
      (checked result enterMarket_failed,
       [Comptroller_enterMarkets (comptroller st) [c]], w1)
  end.
Proof.
  unfold enterMarket, checked; simpl.
  destruct (handle (Comptroller_enterMarkets (comptroller st) [c]) w)
    as [[codes w1] |]; [ | reflexivity ].
  simpl. destruct (result =? 0); reflexivity.
Qed.

Lemma exec_repayBorrow (result : uint) (c : address) (amt : uint) (w : W) :
  exec handle (repayBorrow result c amt) w =
  match handle (CToken_underlying c) w with
  | None => (Failed (CalleeReverted (CToken_underlying c)),
             [CToken_underlying c], w)
  | Some (u, w1) =>
      match handle (IERC20_approve u c amt) w1 with
      | None => (Failed (CalleeReverted (IERC20_approve u c amt)),
                 [CToken_underlying c; IERC20_approve u c amt], w1)
      | Some (_, w2) =>
          match handle (CToken_repayBorrow c amt) w2 with
          | None => (Failed (CalleeReverted (CToken_repayBorrow c amt)),
                     [CToken_underlying c; IERC20_approve u c amt;
                      CToken_repayBorrow c amt], w2)
          | Some (_, w3) =>
              (checked result repayBorrow_failed,
               [CToken_underlying c; IERC20_approve u c amt;
                CToken_repayBorrow c amt], w3)
          end
      end
  end.
Proof.
  unfold repayBorrow, checked; simpl.
  destruct (handle (CToken_underlying c) w) as [[u w1] |]; [ | reflexivity ].
  simpl.
  destruct (handle (IERC20_approve u c amt) w1) as [[ok w2] |];
    [ | reflexivity ].
  simpl.
  destruct (handle (CToken_repayBorrow c amt) w2) as [[code w3] |];
    [ | reflexivity ].
  simpl. destruct (result =? 0); reflexivity.
Qed.

Lemma exec_getMaxBorrow (this : address) (st : Storage) (c : address) (w : W) :
  let q := Comptroller_getAccountLiquidity (comptroller st) this in
  let o := PriceOracle_getUnderlyingPrice (priceOracle st) c in
  exec handle (getMaxBorrow this st c) w =
  match handle q w with
  | None => (Failed (CalleeReverted q), [q], w)
  | Some ((result, liquidity, shortfall), w1) =>
      if negb (result =? 0)
      then (Failed (RequireFailed getAccountLiquidity_failed), [q], w1)
      else if negb (shortfall =? 0)
      then (Failed (RequireFailed underwater_reason), [q], w1)
      else if negb (0 <? liquidity)
      then (Failed (RequireFailed no_collateral_reason), [q], w1)
      else match handle o w1 with
           | None => (Failed (CalleeReverted o), [q; o], w1)
           | Some (price, w2) =>
               (if price =? 0 then Failed DivisionByZero
                else Returned (liquidity / price), [q; o], w2)
           end
  end.
Proof.
  intros q o. unfold getMaxBorrow; simpl. fold q.
  destruct (handle q w) as [[[[result liquidity] shortfall] w1] |];
    [ | reflexivity ].
  simpl.
  destruct (result =? 0); simpl; [ | reflexivity ].
  destruct (shortfall =? 0); simpl; [ | reflexivity ].
  destruct (0 <? liquidity); simpl; [ | reflexivity ].
  fold o.
  destruct (handle o w1) as [[price w2] |]; [ | reflexivity ].
  unfold div. destruct (price =? 0); reflexivity.
Qed.

End ExecFacts.

(** The quotient of a 256-bit value stays in range: the contract's only
    arithmetic cannot wrap around. *)
Lemma div_in_range (a b : uint) : a <= uint_max -> a / b <= uint_max.
Proof.
  intros Ha. destruct (N.eq_dec b 0) as [-> | Hb].
  - destruct a; simpl; [ apply N.le_0_l | apply N.le_0_l ].
  - apply N.le_trans with a; [ | exact Ha ].
    apply N.Div0.div_le_upper_bound.
    rewrite <- (N.mul_1_l a) at 1.
    apply N.mul_le_mono_r. lia.
Qed.

(** ** The maximum borrow *)

(** C1 (amended).  Whenever the comptroller's liquidity query succeeds with
    code 0, zero shortfall and positive liquidity, and the oracle's price of
    the asset is strictly positive, getMaxBorrow returns the integer quotient
    liquidity / price.  The quotient is recomputed on every call: a call
    issues the liquidity query and the price query anew, and of two queries
    in a row the second returns the quotient of the figures the comptroller
    and the oracle report at that moment, whatever the first returned. *)
Theorem getMaxBorrow_quotient :
  forall (W : Type) (handle : forall c : Call, W -> option (Resp c * W))
         (this : address) (st : Storage) (c : address)
         (w w1 w2 : W) (liq price : uint),
    let q := Comptroller_getAccountLiquidity (comptroller st) this in
    let o := PriceOracle_getUnderlyingPrice (priceOracle st) c in
    handle q w = Some ((0, liq, 0), w1) -> 0 < liq ->
    handle o w1 = Some (price, w2) -> 0 < price ->
    exec handle (getMaxBorrow this st c) w =
      (Returned (liq / price), [q; o], w2) /\
    (forall (w3 w4 : W) (liq' price' : uint),
       handle q w2 = Some ((0, liq', 0), w3) -> 0 < liq' ->
       handle o w3 = Some (price', w4) -> 0 < price' ->
       exec handle (queryTwice this st c) w =
         (Returned (liq / price, liq' / price'), [q; o; q; o], w4)).
Proof.
  intros W handle this st c w w1 w2 liq price q o.
  assert (once : forall (v v1 v2 : W) (l p : uint),
             handle q v = Some ((0, l, 0), v1) -> 0 < l ->
             handle o v1 = Some (p, v2) -> 0 < p ->
             exec handle (getMaxBorrow this st c) v =
               (Returned (l / p), [q; o], v2)).
  { intros v v1 v2 l p Hq Hl Ho Hp.
    rewrite exec_getMaxBorrow. fold q o. rewrite Hq. simpl.
    apply N.ltb_lt in Hl. rewrite Hl. simpl. rewrite Ho.
    assert (E : (p =? 0) = false) by (apply N.eqb_neq; lia).
    rewrite E. reflexivity. }
  intros Hq Hliq Ho Hprice.
  pose proof (once w w1 w2 liq price Hq Hliq Ho Hprice) as first.
  split; [ exact first | ].
  intros w3 w4 liq' price' Hq' Hliq' Ho' Hprice'.
  unfold queryTwice. rewrite exec_bind, first.
  rewrite exec_bind, (once w2 w3 w4 liq' price' Hq' Hliq' Ho' Hprice').
  reflexivity.
Qed.

Lemma getMaxBorrow_quotient_moving_price :
  exec Pool.drifting (getMaxBorrow vault deployed cDAI) funded =
    (Returned 375,
     [Comptroller_getAccountLiquidity unitroller vault;
      PriceOracle_getUnderlyingPrice feed cDAI],
     Pool.with_price 3 funded) /\
  exec Pool.drifting (queryTwice vault deployed cDAI) funded =
    (Returned (375, 562),
     [Comptroller_getAccountLiquidity unitroller vault;
      PriceOracle_getUnderlyingPrice feed cDAI;
      Comptroller_getAccountLiquidity unitroller vault;
      PriceOracle_getUnderlyingPrice feed cDAI],
     Pool.with_price 5 funded).
Proof.
  destruct (getMaxBorrow_quotient Pool.State Pool.drifting vault deployed cDAI
              funded (Pool.with_price 2 funded) (Pool.with_price 3 funded)
              750 2) as [first second];
    try solve [ reflexivity ].
  split; [ exact first | ].
  apply (second (Pool.with_price 4 funded) (Pool.with_price 5 funded) 2250 4);
    reflexivity.
Defined.

(** C1 as stated fails where the oracle has no price: the liquidity query
    succeeds with code 0, zero shortfall and liquidity 750, and getMaxBorrow
    returns no quotient but aborts. *)
Lemma getMaxBorrow_no_quotient_unpriced :
  Pool.handle (Comptroller_getAccountLiquidity unitroller vault) funded =
    Some ((0, 750, 0), funded) /\
  Pool.handle (PriceOracle_getUnderlyingPrice feed cETH) funded =
    Some (0, funded) /\
  outcome Pool.handle (getMaxBorrow vault deployed cETH) funded =
    Failed DivisionByZero.
Proof. repeat split. Qed.

(** C10.  When the comptroller's query succeeds with zero shortfall and
    positive liquidity, the division by the oracle's price is unguarded:
    getMaxBorrow aborts with a division by zero exactly when the price is
    zero, and returns a value exactly when the price is strictly positive. *)
Theorem getMaxBorrow_zero_price_aborts :
  forall (W : Type) (handle : forall c : Call, W -> option (Resp c * W))
         (this : address) (st : Storage) (c : address)
         (w w1 w2 : W) (liq price : uint),
    handle (Comptroller_getAccountLiquidity (comptroller st) this) w =
      Some ((0, liq, 0), w1) ->
    0 < liq ->
    handle (PriceOracle_getUnderlyingPrice (priceOracle st) c) w1 =
      Some (price, w2) ->
    (price = 0 <->
     outcome handle (getMaxBorrow this st c) w = Failed DivisionByZero) /\
    (0 < price <->
     exists v, outcome handle (getMaxBorrow this st c) w = Returned v).
Proof.
  intros W handle this st c w w1 w2 liq price Hq Hliq Ho.
  unfold outcome. rewrite exec_getMaxBorrow. rewrite Hq. simpl.
  apply N.ltb_lt in Hliq. rewrite Hliq. simpl. rewrite Ho. simpl.
  destruct (N.eqb_spec price 0) as [E | E]; simpl.
  - split; split; try tauto; try lia.
    intros [v Hv]. discriminate Hv.
  - split; split; try tauto; try lia.
    + intros H. discriminate H.
    + intros _. eexists. reflexivity.
Qed.

Lemma getMaxBorrow_zero_price_aborts_leveraged :
  Pool.handle (Comptroller_getAccountLiquidity unitroller vault) leveraged =
    Some ((0, 450, 0), leveraged) /\
  Pool.handle (PriceOracle_getUnderlyingPrice feed cETH) leveraged =
    Some (0, leveraged) /\
  outcome Pool.handle (getMaxBorrow vault deployed cETH) leveraged =
    Failed DivisionByZero.
Proof.
  split; [ reflexivity | split; [ reflexivity | ] ].
  destruct (getMaxBorrow_zero_price_aborts Pool.State Pool.handle vault
              deployed cETH leveraged leveraged leveraged 450 0
              eq_refl eq_refl eq_refl) as [[Hzero _] _].
  apply Hzero. reflexivity.
Defined.

(** ** Result codes *)

(** Where the [require] names the variable that received the market's code,
    a non-zero code fails the call. *)
Lemma supply_checks_code :
  forall (W : Type) (handle : forall c : Call, W -> option (Resp c * W))
         (c : address) (amt : uint) (w w1 w2 w3 : W) (u : address) (ok : bool)
         (code : uint),
    handle (CToken_underlying c) w = Some (u, w1) ->
    handle (IERC20_approve u c amt) w1 = Some (ok, w2) ->
    handle (CToken_mint c amt) w2 = Some (code, w3) ->
    code <> 0 ->
    outcome handle (supply c amt) w = Failed (RequireFailed mint_failed).
Proof.
  intros W handle c amt w w1 w2 w3 u ok code Hu Ha Hm Hcode.
  unfold outcome. rewrite exec_supply, Hu, Ha, Hm. simpl.
  unfold checked. apply N.eqb_neq in Hcode. rewrite Hcode. reflexivity.
Qed.

Lemma redeem_checks_code :
  forall (W : Type) (handle : forall c : Call, W -> option (Resp c * W))
         (c : address) (amt : uint) (w w1 : W) (code : uint),
    handle (CToken_redeem c amt) w = Some (code, w1) ->
    code <> 0 ->
    outcome handle (redeem c amt) w = Failed (RequireFailed redeem_failed).
Proof.
  intros W handle c amt w w1 code Hr Hcode.
  unfold outcome. rewrite exec_redeem, Hr. simpl.
  unfold checked. apply N.eqb_neq in Hcode. rewrite Hcode. reflexivity.
Qed.

Lemma borrow_checks_code :
  forall (W : Type) (handle : forall c : Call, W -> option (Resp c * W))
         (c : address) (amt : uint) (w w1 w2 : W) (u : address) (code : uint),
    handle (CToken_underlying c) w = Some (u, w1) ->
    handle (CToken_borrow c amt) w1 = Some (code, w2) ->
    code <> 0 ->
    outcome handle (borrow c amt) w = Failed (RequireFailed borrow_failed).
Proof.
  intros W handle c amt w w1 w2 u code Hu Hb Hcode.
  unfold outcome. rewrite exec_borrow, Hu, Hb. simpl.
  unfold checked. apply N.eqb_neq in Hcode. rewrite Hcode. reflexivity.
Qed.

(** X8.  enterMarket never inspects the codes the comptroller returns:
    once enterMarkets has returned, with whatever codes, the outcome is the
    verdict on what the unbound [result] denotes, and exactly one call has
    been made, submitting the one market to the stored comptroller. *)
Lemma enterMarket_ignores_codes :
  forall (W : Type) (handle : forall c : Call, W -> option (Resp c * W))
         (st : Storage) (result : uint) (c : address) (w w1 : W)
         (codes : list uint),
    handle (Comptroller_enterMarkets (comptroller st) [c]) w =
      Some (codes, w1) ->
    exec handle (enterMarket st result c) w =
      (checked result enterMarket_failed,
       [Comptroller_enterMarkets (comptroller st) [c]], w1).
Proof.
  intros W handle st result c w w1 codes He.
  rewrite exec_enterMarket, He. reflexivity.
Qed.

Example enterMarket_unlisted_market_passes :
  Pool.handle (Comptroller_enterMarkets unitroller [cETH]) funded =
    Some ([9], funded) /\
  transact Pool.handle (enterMarket deployed 0 cETH) funded =
    (Returned tt, funded).
Proof. split; reflexivity. Qed.

(** C2 (the code departs from it).  In repayBorrow the market's code is
    bound to [reault] while the [require] tests [result]: when the market
    answers the repayment with a non-zero code, the outcome is the verdict on
    whatever [result] denotes and does not depend on the code; where
    [result] is zero the repayment is reported as done, with the market's
    state as the declined call left it. *)
Theorem repayBorrow_ignores_code :
  forall (W : Type) (handle : forall c : Call, W -> option (Resp c * W))
         (result : uint) (c : address) (amt : uint) (w w1 w2 w3 : W)
         (u : address) (ok : bool) (code : uint),
    handle (CToken_underlying c) w = Some (u, w1) ->
    handle (IERC20_approve u c amt) w1 = Some (ok, w2) ->
    handle (CToken_repayBorrow c amt) w2 = Some (code, w3) ->
    code <> 0 ->
    outcome handle (repayBorrow result c amt) w =
      checked result repayBorrow_failed /\
    (result = 0 ->
     transact handle (repayBorrow result c amt) w = (Returned tt, w3)).
Proof.
  intros W handle result c amt w w1 w2 w3 u ok code Hu Ha Hr _.
  unfold outcome, transact. rewrite exec_repayBorrow, Hu, Ha, Hr. simpl.
  split; [ reflexivity | ].
  intros ->. reflexivity.
Qed.

Lemma repayBorrow_ignores_code_stale :
  Pool.handle (CToken_repayBorrow cDAI 40) stale = Some (10, stale) /\
  outcome Pool.handle (repayBorrow 0 cDAI 40) stale = Returned tt /\
  transact Pool.handle (repayBorrow 0 cDAI 40) stale = (Returned tt, stale).
Proof.
  split; [ reflexivity | ].
  destruct (repayBorrow_ignores_code Pool.State Pool.handle 0 cDAI 40
              stale stale stale stale DAI true 10) as [Ho Ht];
    try reflexivity.
  - discriminate.
  - split; [ exact Ho | apply Ht; reflexivity ].
Defined.

(** ** Requests are forwarded as they come *)

(** C3 (amended).  For every repay request, also one whose amount exceeds
    the outstanding borrow, repayBorrow approves and forwards the requested
    amount unchanged to the market's repayBorrow as soon as underlying() and
    approve have returned; nothing is clamped, and when the market reverts on
    the amount the transaction fails and leaves every balance as it was. *)
Theorem repayBorrow_forwards_amount :
  forall (W : Type) (handle : forall c : Call, W -> option (Resp c * W))
         (result : uint) (c : address) (amt : uint) (w w1 w2 : W)
         (u : address) (ok : bool),
    handle (CToken_underlying c) w = Some (u, w1) ->
    handle (IERC20_approve u c amt) w1 = Some (ok, w2) ->
    calls handle (repayBorrow result c amt) w =
      [CToken_underlying c; IERC20_approve u c amt; CToken_repayBorrow c amt]
    /\
    (handle (CToken_repayBorrow c amt) w2 = None ->
     transact handle (repayBorrow result c amt) w =
       (Failed (CalleeReverted (CToken_repayBorrow c amt)), w)).
Proof.
  intros W handle result c amt w w1 w2 u ok Hu Ha.
  unfold calls, transact. rewrite exec_repayBorrow, Hu, Ha.
  destruct (handle (CToken_repayBorrow c amt) w2) as [[code w3] |].
  - split; [ reflexivity | discriminate ].
  - split; reflexivity.
Qed.

Lemma repayBorrow_forwards_amount_owing :
  Pool.borrowed owing = 40 /\
  calls Pool.handle (repayBorrow 0 cDAI 100) owing =
    [CToken_underlying cDAI; IERC20_approve DAI cDAI 100;
     CToken_repayBorrow cDAI 100] /\
  transact Pool.handle (repayBorrow 0 cDAI 100) owing =
    (Failed (CalleeReverted (CToken_repayBorrow cDAI 100)), owing).
Proof.
  split; [ reflexivity | ].
  destruct (repayBorrow_forwards_amount Pool.State Pool.handle 0 cDAI 100
              owing owing owing DAI true eq_refl eq_refl)
    as [Hcalls Hrevert].
  split; [ exact Hcalls | apply Hrevert; reflexivity ].
Defined.

(** C3 as stated fails: with 40 DAI outstanding, a request to repay 100 DAI
    reaches the market as a repayment of 100, not of 40; the market reverts,
    the request fails and the borrow balance stays 40. *)
Lemma repayBorrow_overpay_not_clamped :
  Pool.borrowed owing = 40 /\
  exec Pool.handle (repayBorrow 0 cDAI 100) owing =
    (Failed (CalleeReverted (CToken_repayBorrow cDAI 100)),
     [CToken_underlying cDAI; IERC20_approve DAI cDAI 100;
      CToken_repayBorrow cDAI 100],
     owing) /\
  (forall result : uint,
     In (CToken_repayBorrow cDAI 100)
        (calls Pool.handle (repayBorrow result cDAI 100) owing) /\
     ~ In (CToken_repayBorrow cDAI 40)
          (calls Pool.handle (repayBorrow result cDAI 100) owing) /\
     Pool.borrowed
       (snd (transact Pool.handle (repayBorrow result cDAI 100) owing)) = 40).
Proof.
  split; [ reflexivity | split; [ reflexivity | ] ].
  intros result. repeat split.
  - right; right; left; reflexivity.
  - intros [H | [H | [H | []]]]; discriminate H.
Qed.

(** C4 (amended).  borrow compares nothing with the account's liquidity: as
    soon as underlying() has returned it forwards the requested amount to the
    market's borrow, and it succeeds exactly when the market answers with
    code 0; on any other code it fails with the reason "cToken#borrow()
    failed ...". *)
Theorem borrow_follows_market_code :
  forall (W : Type) (handle : forall c : Call, W -> option (Resp c * W))
         (c : address) (amt : uint) (w w1 w2 : W) (u : address) (code : uint),
    handle (CToken_underlying c) w = Some (u, w1) ->
    handle (CToken_borrow c amt) w1 = Some (code, w2) ->
    exec handle (borrow c amt) w =
      (checked code borrow_failed,
       [CToken_underlying c; CToken_borrow c amt], w2) /\
    (code = 0 <-> outcome handle (borrow c amt) w = Returned tt) /\
    (code <> 0 <->
     outcome handle (borrow c amt) w = Failed (RequireFailed borrow_failed)).
Proof.
  intros W handle c amt w w1 w2 u code Hu Hb.
  unfold outcome. rewrite exec_borrow, Hu, Hb. simpl. unfold checked.
  split; [ reflexivity | ].
  destruct (N.eqb_spec code 0) as [E | E]; split; split;
    solve [ tauto | discriminate | reflexivity ].
Qed.

Lemma borrow_follows_market_code_funded :
  Pool.handle (CToken_borrow cDAI 750) funded =
    Some (0, Pool.with_cash 4250 (Pool.with_borrowed 750 funded)) /\
  exec Pool.handle (borrow cDAI 750) funded =
    (Returned tt, [CToken_underlying cDAI; CToken_borrow cDAI 750],
     Pool.with_cash 4250 (Pool.with_borrowed 750 funded)).
Proof.
  split; [ reflexivity | ].
  destruct (borrow_follows_market_code Pool.State Pool.handle cDAI 750 funded
              funded (Pool.with_cash 4250 (Pool.with_borrowed 750 funded))
              DAI 0 eq_refl eq_refl) as [Hexec _].
  exact Hexec.
Defined.

(** C4 as stated fails both ways.  With liquidity 750 at price 1 and no
    shortfall, a borrow of 500 is within the liquidity and yet fails, the
    pool being short of cash; and a borrow of 751 is not stopped by the
    contract: it is sent to the market, and the failure is the market's code
    reported by the [require] that follows the call. *)
Lemma borrow_within_liquidity_fails :
  Pool.handle (Comptroller_getAccountLiquidity unitroller vault) drained =
    Some ((0, 750, 0), drained) /\
  Pool.handle (PriceOracle_getUnderlyingPrice feed cDAI) drained =
    Some (1, drained) /\
  500 * 1 <= 750 /\
  Pool.handle (CToken_borrow cDAI 500) drained = Some (14, drained) /\
  outcome Pool.handle (borrow cDAI 500) drained =
    Failed (RequireFailed borrow_failed) /\
  751 * 1 > 750 /\
  Pool.handle (CToken_borrow cDAI 751) drained = Some (3, drained) /\
  exec Pool.handle (borrow cDAI 751) drained =
    (Failed (RequireFailed borrow_failed),
     [CToken_underlying cDAI; CToken_borrow cDAI 751], drained).
Proof. repeat split; discriminate. Qed.

(** C5 (amended).  The max-borrow query fails with "account underwater"
    when the fresh snapshot has a non-zero shortfall, and with "account does
    not have collateral" when shortfall and liquidity are both zero, in both
    cases right after the liquidity query, before the oracle or the market
    is called.  borrow has no such validation: it never queries the
    account's liquidity. *)
Theorem getMaxBorrow_rejects_before_oracle :
  forall (W : Type) (handle : forall c : Call, W -> option (Resp c * W))
         (this : address) (st : Storage) (c : address) (w w1 : W)
         (liq sf : uint),
    let q := Comptroller_getAccountLiquidity (comptroller st) this in
    handle q w = Some ((0, liq, sf), w1) ->
    (sf <> 0 ->
     exec handle (getMaxBorrow this st c) w =
       (Failed (RequireFailed underwater_reason), [q], w1)) /\
    (sf = 0 -> liq = 0 ->
     exec handle (getMaxBorrow this st c) w =
       (Failed (RequireFailed no_collateral_reason), [q], w1)) /\
    (forall (amt : uint) (w' : W),
       existsb liquidity_query (calls handle (borrow c amt) w') = false).
Proof.
  intros W handle this st c w w1 liq sf q Hq.
  repeat split.
  - intros Hsf. rewrite exec_getMaxBorrow. fold q. rewrite Hq. simpl.
    apply N.eqb_neq in Hsf. rewrite Hsf. reflexivity.
  - intros -> ->. rewrite exec_getMaxBorrow. fold q. rewrite Hq. reflexivity.
  - intros amt w'. unfold calls. rewrite exec_borrow.
    destruct (handle (CToken_underlying c) w') as [[u w2] |];
      [ | reflexivity ].
    destruct (handle (CToken_borrow c amt) w2) as [[code w3] |]; reflexivity.
Qed.

Lemma getMaxBorrow_rejects_underwater :
  exec Pool.handle (getMaxBorrow vault deployed cDAI) underwater =
    (Failed (RequireFailed underwater_reason),
     [Comptroller_getAccountLiquidity unitroller vault], underwater) /\
  exec Pool.handle (getMaxBorrow vault deployed cDAI) bare =
    (Failed (RequireFailed no_collateral_reason),
     [Comptroller_getAccountLiquidity unitroller vault], bare).
Proof.
  split.
  - apply (getMaxBorrow_rejects_before_oracle Pool.State Pool.handle vault
             deployed cDAI underwater underwater 0 50); [ reflexivity | ].
    discriminate.
  - apply (getMaxBorrow_rejects_before_oracle Pool.State Pool.handle vault
             deployed cDAI bare bare 0 0); reflexivity.
Defined.

(** C5 as stated fails for borrow.  On an account with shortfall 50 a borrow
    of amount 0 is sent to the market, and the failure is the market's code;
    on an account with zero liquidity and no shortfall a borrow of amount 0
    is sent to the market and succeeds. *)
Lemma borrow_underwater_reaches_market :
  Pool.handle (Comptroller_getAccountLiquidity unitroller vault) underwater =
    Some ((0, 0, 50), underwater) /\
  Pool.handle (CToken_borrow cDAI 0) underwater = Some (3, underwater) /\
  exec Pool.handle (borrow cDAI 0) underwater =
    (Failed (RequireFailed borrow_failed),
     [CToken_underlying cDAI; CToken_borrow cDAI 0], underwater) /\
  Pool.handle (Comptroller_getAccountLiquidity unitroller vault) bare =
    Some ((0, 0, 0), bare) /\
  Pool.handle (CToken_borrow cDAI 0) bare = Some (0, bare) /\
  exec Pool.handle (borrow cDAI 0) bare =
    (Returned tt, [CToken_underlying cDAI; CToken_borrow cDAI 0], bare).
Proof. repeat split. Qed.

(** C6 (amended).  redeem checks neither the supplied balance nor the
    collateral: it forwards the requested amount of receipt shares to the
    market's redeem unconditionally, and it succeeds exactly when the market
    answers with code 0; on any other code it fails with the reason
    "cTokenRedeem() failed ...". *)
Theorem redeem_follows_market_code :
  forall (W : Type) (handle : forall c : Call, W -> option (Resp c * W))
         (c : address) (amt : uint) (w w1 : W) (code : uint),
    handle (CToken_redeem c amt) w = Some (code, w1) ->
    exec handle (redeem c amt) w =
      (checked code redeem_failed, [CToken_redeem c amt], w1) /\
    (code = 0 <-> outcome handle (redeem c amt) w = Returned tt) /\
    (code <> 0 <->
     outcome handle (redeem c amt) w = Failed (RequireFailed redeem_failed)).
Proof.
  intros W handle c amt w w1 code Hr.
  unfold outcome. rewrite exec_redeem, Hr. simpl. unfold checked.
  split; [ reflexivity | ].
  destruct (N.eqb_spec code 0) as [E | E]; split; split;
    solve [ tauto | discriminate | reflexivity ].
Qed.

Lemma redeem_follows_market_code_leveraged :
  Pool.handle (CToken_redeem cDAI 600) leveraged =
    Some (0, Pool.with_cash 4400 (Pool.with_supplied 400 leveraged)) /\
  exec Pool.handle (redeem cDAI 600) leveraged =
    (Returned tt, [CToken_redeem cDAI 600],
     Pool.with_cash 4400 (Pool.with_supplied 400 leveraged)).
Proof.
  split; [ reflexivity | ].
  destruct (redeem_follows_market_code Pool.State Pool.handle cDAI 600
              leveraged
              (Pool.with_cash 4400 (Pool.with_supplied 400 leveraged)) 0
              eq_refl) as [Hexec _].
  exact Hexec.
Defined.

(** C6 as stated fails.  With 1000 supplied at factor 75% and 300 borrowed,
    withdrawing 601 would create a shortfall and 600 would not; yet a
    withdrawal of 600 fails when the pool is short of cash, and withdrawals
    of 601 and of 1001 (more than is supplied) are not stopped by the
    contract: they are sent to the market, and the failure is the market's
    code reported by the [require] that follows the call. *)
Lemma redeem_below_threshold_fails :
  Pool.supplied indebted = 1000 /\
  Pool.collateral (Pool.with_supplied (1000 - 600) indebted) = 300 /\
  Pool.collateral (Pool.with_supplied (1000 - 601) indebted) = 299 /\
  Pool.debt indebted = 300 /\
  Pool.handle (CToken_redeem cDAI 600) indebted = Some (14, indebted) /\
  outcome Pool.handle (redeem cDAI 600) indebted =
    Failed (RequireFailed redeem_failed) /\
  Pool.handle (CToken_redeem cDAI 601) indebted = Some (3, indebted) /\
  exec Pool.handle (redeem cDAI 601) indebted =
    (Failed (RequireFailed redeem_failed), [CToken_redeem cDAI 601],
     indebted) /\
  Pool.handle (CToken_redeem cDAI 1001) indebted = Some (9, indebted) /\
  exec Pool.handle (redeem cDAI 1001) indebted =
    (Failed (RequireFailed redeem_failed), [CToken_redeem cDAI 1001],
     indebted).
Proof. repeat split. Qed.

(** C9 (amended).  The contract validates nothing before it calls the
    market.  Each of supply, redeem, enterMarket, borrow and repayBorrow
    issues its mutating market call for every request, unless a preliminary
    call (underlying() or approve) itself reverts; and whenever one of them
    fails on a [require], the market call has already been made. *)
Theorem requests_reach_market :
  forall (W : Type) (handle : forall c : Call, W -> option (Resp c * W))
         (st : Storage) (result : uint) (c : address) (amt : uint) (w : W),
    Forall
      (fun p : Prog unit =>
         (existsb market_mutation (calls handle p w) = true \/
          exists c' : Call,
            outcome handle p w = Failed (CalleeReverted c') /\
            market_mutation c' = false) /\
         (forall reason : string,
            outcome handle p w = Failed (RequireFailed reason) ->
            existsb market_mutation (calls handle p w) = true))
      (requests st result c amt).
Proof.
  intros W handle st result c amt w.
  unfold requests, calls, outcome.
  repeat apply Forall_cons; [ | | | | | apply Forall_nil ].
  - rewrite exec_supply.
    destruct (handle (CToken_underlying c) w) as [[u w1] |]; simpl.
    + destruct (handle (IERC20_approve u c amt) w1) as [[ok w2] |]; simpl.
      * destruct (handle (CToken_mint c amt) w2) as [[code w3] |]; simpl;
          (split; [ left; reflexivity | reflexivity ]).
      * split; [ right; eexists; split; reflexivity | discriminate ].
    + split; [ right; eexists; split; reflexivity | discriminate ].
  - rewrite exec_redeem.
    destruct (handle (CToken_redeem c amt) w) as [[code w1] |]; simpl;
      (split; [ left; reflexivity | reflexivity ]).
  - rewrite exec_enterMarket.
    destruct (handle (Comptroller_enterMarkets (comptroller st) [c]) w)
      as [[codes w1] |]; simpl; (split; [ left; reflexivity | reflexivity ]).
  - rewrite exec_borrow.
    destruct (handle (CToken_underlying c) w) as [[u w1] |]; simpl.
    + destruct (handle (CToken_borrow c amt) w1) as [[code w2] |]; simpl;
        (split; [ left; reflexivity | reflexivity ]).
    + split; [ right; eexists; split; reflexivity | discriminate ].
  - rewrite exec_repayBorrow.
    destruct (handle (CToken_underlying c) w) as [[u w1] |]; simpl.
    + destruct (handle (IERC20_approve u c amt) w1) as [[ok w2] |]; simpl.
      * destruct (handle (CToken_repayBorrow c amt) w2) as [[code w3] |];
          simpl; (split; [ left; reflexivity | reflexivity ]).
      * split; [ right; eexists; split; reflexivity | discriminate ].
    + split; [ right; eexists; split; reflexivity | discriminate ].
Qed.

Lemma requests_reach_market_underwater :
  existsb market_mutation (calls Pool.handle (borrow cDAI 5) underwater) = true.
Proof.
  pose proof (requests_reach_market Pool.State Pool.handle deployed 0 cDAI 5
                underwater) as H.
  unfold requests in H.
  apply Forall_inv_tail, Forall_inv_tail, Forall_inv_tail, Forall_inv in H.
  destruct H as [_ H]. apply (H borrow_failed). reflexivity.
Defined.

(** C9 as stated fails.  A supply of amount 0, which the validation rule
    "amount > 0" rejects, is approved and minted at the market and reported
    as done; a borrow of 751 against a liquidity of 750 is sent to the
    market as well. *)
Lemma supply_zero_reaches_market :
  Pool.handle (CToken_mint cDAI 0) funded = Some (0, funded) /\
  exec Pool.handle (supply cDAI 0) funded =
    (Returned tt,
     [CToken_underlying cDAI; IERC20_approve DAI cDAI 0; CToken_mint cDAI 0],
     funded) /\
  existsb market_mutation (calls Pool.handle (supply cDAI 0) funded) = true /\
  Pool.liquidity funded = 750 /\
  In (CToken_borrow cDAI 751) (calls Pool.handle (borrow cDAI 751) funded).
Proof.
  repeat split. right; left; reflexivity.
Qed.

(** ** The account snapshot *)

Section LedgerFacts.

Variable price : Ledger.Asset -> N.

Local Open Scope Q_scope.

Lemma value_mono (a : Ledger.Asset) (x y : N) :
  (x <= y)%N -> Ledger.value price a x <= Ledger.value price a y.
Proof.
  intros H. unfold Ledger.value. rewrite <- Zle_Qle.
  apply N2Z.inj_le. apply N.mul_le_mono_r. exact H.
Qed.

Lemma value_zero (a : Ledger.Asset) : Ledger.value price a 0 == 0.
Proof. reflexivity. Qed.

Lemma closed_weightedCollateral (p : Ledger.AccountPosition) :
  Ledger.open p = false -> Ledger.weightedCollateral price p == 0.
Proof.
  unfold Ledger.open. intros H.
  apply orb_false_elim in H. destruct H as [Hs _].
  apply negb_false_iff, N.eqb_eq in Hs.
  unfold Ledger.weightedCollateral, Ledger.collateralValue.
  rewrite Hs. destruct (Ledger.isCollateral p).
  - rewrite value_zero. lra.
  - lra.
Qed.

Lemma closed_borrowValue (p : Ledger.AccountPosition) :
  Ledger.open p = false -> Ledger.borrowValue price p == 0.
Proof.
  unfold Ledger.open. intros H.
  apply orb_false_elim in H. destruct H as [_ Hb].
  apply negb_false_iff, N.eqb_eq in Hb.
  unfold Ledger.borrowValue. rewrite Hb. apply value_zero.
Qed.

(** Positions with nothing supplied and nothing borrowed add nothing to a
    total. *)
Lemma sumQ_filter_open (f : Ledger.AccountPosition -> Q)
  (ps : list Ledger.AccountPosition) :
  (forall p, Ledger.open p = false -> f p == 0) ->
  Ledger.sumQ (map f (filter Ledger.open ps)) == Ledger.sumQ (map f ps).
Proof.
  intros Hf. induction ps as [| p ps IH]; simpl; [ reflexivity | ].
  destruct (Ledger.open p) eqn:E; simpl.
  - rewrite IH. reflexivity.
  - rewrite IH, (Hf p E). lra.
Qed.

Lemma sumQ_app (l l' : list Q) :
  Ledger.sumQ (l ++ l') == Ledger.sumQ l + Ledger.sumQ l'.
Proof.
  induction l as [| x l IH]; simpl; [ lra | rewrite IH; lra ].
Qed.

Lemma sumQ_map_le {A : Type} (f g : A -> Q) (l : list A) :
  (forall x, In x l -> f x <= g x) ->
  Ledger.sumQ (map f l) <= Ledger.sumQ (map g l).
Proof.
  induction l as [| x l IH]; simpl; intros H; [ lra | ].
  apply Qplus_le_compat; [ apply H; left; reflexivity | ].
  apply IH. intros y Hy. apply H. right. exact Hy.
Qed.

Lemma sumQ_map_eq {A : Type} (f g : A -> Q) (l : list A) :
  (forall x, f x == g x) -> Ledger.sumQ (map f l) == Ledger.sumQ (map g l).
Proof.
  intros H. induction l as [| x l IH]; simpl; [ reflexivity | ].
  rewrite IH, (H x). reflexivity.
Qed.

Lemma surplus_deficit (c b : Q) :
  0 <= Qmax (c - b) 0 /\ 0 <= Qmax (b - c) 0 /\
  (Qmax (c - b) 0 == 0 \/ Qmax (b - c) 0 == 0) /\
  Qmax (c - b) 0 - Qmax (b - c) 0 == c - b.
Proof.
  destruct (Q.max_spec (c - b) 0) as [[H1 H2] | [H1 H2]];
    destruct (Q.max_spec (b - c) 0) as [[H3 H4] | [H3 H4]];
    rewrite H2, H4; repeat split;
    solve [ lra | left; lra | right; lra ].
Qed.

(** The effect of a supply on the two totals. *)
Lemma applySupply_totals (a : Ledger.Asset) (amount : N)
  (ps : list Ledger.AccountPosition) :
  Forall Ledger.well_formed ps ->
  Ledger.sumQ (map (Ledger.weightedCollateral price) ps) <=
    Ledger.sumQ (map (Ledger.weightedCollateral price)
                   (Ledger.applySupply a amount ps)) /\
  Ledger.sumQ (map (Ledger.borrowValue price)
                 (Ledger.applySupply a amount ps)) ==
    Ledger.sumQ (map (Ledger.borrowValue price) ps).
Proof.
  intros Hwf. unfold Ledger.applySupply.
  destruct (existsb (Ledger.holds a) ps).
  - rewrite !map_map. split.
    + apply sumQ_map_le. intros p Hp.
      destruct (Ledger.holds a p); [ | lra ].
      rewrite Forall_forall in Hwf. destruct (Hwf p Hp) as [Hcf _].
      unfold Ledger.weightedCollateral, Ledger.collateralValue,
        Ledger.credit; simpl.
      destruct (Ledger.isCollateral p); [ | lra ].
      apply Qmult_le_compat_r; [ | exact Hcf ].
      apply value_mono. lia.
    + apply sumQ_map_eq. intros p.
      destruct (Ledger.holds a p); reflexivity.
  - rewrite !map_app, !sumQ_app. simpl.
    unfold Ledger.weightedCollateral at 3. unfold Ledger.borrowValue at 2.
    unfold Ledger.collateralValue. simpl. rewrite value_zero. split; lra.
Qed.

End LedgerFacts.

Lemma snapshot_liquidity (price : Ledger.Asset -> N)
  (ps : list Ledger.AccountPosition) :
  (Ledger.liquidity (Ledger.snapshot price ps) ==
   Qmax (Ledger.sumQ (map (Ledger.weightedCollateral price) ps) -
         Ledger.sumQ (map (Ledger.borrowValue price) ps)) 0)%Q.
Proof.
  unfold Ledger.snapshot; simpl.
  rewrite (sumQ_filter_open _ ps (closed_weightedCollateral price)).
  rewrite (sumQ_filter_open _ ps (closed_borrowValue price)).
  reflexivity.
Qed.

Lemma snapshot_shortfall (price : Ledger.Asset -> N)
  (ps : list Ledger.AccountPosition) :
  (Ledger.shortfall (Ledger.snapshot price ps) ==
   Qmax (Ledger.sumQ (map (Ledger.borrowValue price) ps) -
         Ledger.sumQ (map (Ledger.weightedCollateral price) ps)) 0)%Q.
Proof.
  unfold Ledger.snapshot; simpl.
  rewrite (sumQ_filter_open _ ps (closed_weightedCollateral price)).
  rewrite (sumQ_filter_open _ ps (closed_borrowValue price)).
  reflexivity.
Qed.

(** C7.  In every snapshot the ledger assembles, liquidity and shortfall
    are non-negative, at most one of them is non-zero (a positive liquidity
    means a zero shortfall, and the other way round), and liquidity minus
    shortfall is the sum over the positions of collateral value times
    collateral factor, minus the sum of the borrow values. *)
Theorem snapshot_invariant :
  forall (price : Ledger.Asset -> N) (ps : list Ledger.AccountPosition),
    let s := Ledger.snapshot price ps in
    (0 <= Ledger.liquidity s /\ 0 <= Ledger.shortfall s /\
     (0 < Ledger.liquidity s -> Ledger.shortfall s == 0) /\
     (0 < Ledger.shortfall s -> Ledger.liquidity s == 0) /\
     Ledger.liquidity s - Ledger.shortfall s ==
       Ledger.sumQ
         (map (fun p => Ledger.collateralValue price p *
                        Ledger.collateralFactor (Ledger.asset p)) ps) -
       Ledger.sumQ (map (Ledger.borrowValue price) ps))%Q.
Proof.
  intros price ps s. subst s.
  rewrite snapshot_liquidity, snapshot_shortfall.
  change (fun p => Ledger.collateralValue price p *
                   Ledger.collateralFactor (Ledger.asset p))%Q
    with (Ledger.weightedCollateral price).
  set (c := Ledger.sumQ (map (Ledger.weightedCollateral price) ps)).
  set (b := Ledger.sumQ (map (Ledger.borrowValue price) ps)).
  destruct (surplus_deficit c b) as [Hl [Hs [Hone Hdiff]]].
  repeat split; try assumption.
  - intros Hpos. destruct Hone as [H | H]; [ | exact H ].
    rewrite H in Hpos. apply Qlt_irrefl in Hpos. contradiction.
  - intros Hpos. destruct Hone as [H | H]; [ exact H | ].
    rewrite H in Hpos. apply Qlt_irrefl in Hpos. contradiction.
Qed.

Lemma snapshot_invariant_book :
  (0 < Ledger.liquidity (Ledger.snapshot parPrice book) /\
   Ledger.shortfall (Ledger.snapshot parPrice book) == 0 /\
   Ledger.liquidity (Ledger.snapshot parPrice book) == 750)%Q.
Proof.
  destruct (snapshot_invariant parPrice book) as [_ [_ [H _]]].
  split; [ reflexivity | ].
  split; [ apply H; reflexivity | reflexivity ].
Defined.

(** C8.  Whatever the account's positions, after a supply its liquidity is
    not lower than before and its shortfall not higher, so that no shortfall
    appears where there was none; and the contract's supply never queries
    the account's liquidity: it only reads the underlying token, approves
    and mints. *)
Theorem supply_never_hurts :
  forall (W : Type) (handle : forall c : Call, W -> option (Resp c * W))
         (c : address) (w : W)
         (price : Ledger.Asset -> N) (a : Ledger.Asset) (amount : uint)
         (ps : list Ledger.AccountPosition),
    Forall Ledger.well_formed ps ->
    let before := Ledger.snapshot price ps in
    let after := Ledger.snapshot price (Ledger.applySupply a amount ps) in
    (Ledger.liquidity before <= Ledger.liquidity after)%Q /\
    (Ledger.shortfall after <= Ledger.shortfall before)%Q /\
    (Ledger.shortfall before == 0 -> Ledger.shortfall after == 0)%Q /\
    existsb liquidity_query (calls handle (supply c amount) w) = false.
Proof.
  intros W handle c w price a amount ps Hwf before after.
  destruct (applySupply_totals price a amount ps Hwf) as [Hc Hb].
  assert (Hliq : (Ledger.liquidity before <= Ledger.liquidity after)%Q).
  { subst before after. rewrite !snapshot_liquidity, Hb.
    apply Q.max_le_compat_r.
    apply Qplus_le_l. exact Hc. }
  assert (Hsf : (Ledger.shortfall after <= Ledger.shortfall before)%Q).
  { subst before after. rewrite !snapshot_shortfall, Hb.
    apply Q.max_le_compat_r. lra. }
  repeat split; try assumption.
  - intros H0.
    assert (Hge : (0 <= Ledger.shortfall after)%Q).
    { subst after. rewrite snapshot_shortfall. apply Q.le_max_r. }
    rewrite H0 in Hsf. apply Qle_antisym; assumption.
  - unfold calls. rewrite exec_supply.
    destruct (handle (CToken_underlying c) w) as [[u w1] |];
      [ | reflexivity ].
    destruct (handle (IERC20_approve u c amount) w1) as [[ok w2] |];
      [ | reflexivity ].
    destruct (handle (CToken_mint c amount) w2) as [[code w3] |];
      reflexivity.
Qed.

Lemma supply_never_hurts_book :
  (Ledger.liquidity (Ledger.snapshot parPrice book) <=
   Ledger.liquidity
     (Ledger.snapshot parPrice (Ledger.applySupply assetA 100 book)))%Q /\
  (Ledger.shortfall
     (Ledger.snapshot parPrice (Ledger.applySupply assetA 100 book)) <=
   Ledger.shortfall (Ledger.snapshot parPrice book))%Q /\
  (Ledger.shortfall (Ledger.snapshot parPrice book) == 0 ->
   Ledger.shortfall
     (Ledger.snapshot parPrice (Ledger.applySupply assetA 100 book)) == 0)%Q /\
  existsb liquidity_query (calls Pool.handle (supply cDAI 100) funded) = false.
Proof.
  apply (supply_never_hurts Pool.State Pool.handle cDAI funded parPrice
           assetA 100 book).
  apply Forall_cons; [ | apply Forall_nil ].
  unfold Ledger.well_formed; simpl. split; [ discriminate | reflexivity ].
Defined.


(** ** Further properties of the contract *)

(** X1.  supply returns exactly when underlying(), approve and mint all
    return and the market answers the mint with code 0; what approve
    answers plays no part. *)
Theorem supply_succeeds_iff_mint_code_zero :
  forall (W : Type) (handle : forall c : Call, W -> option (Resp c * W))
         (c : address) (amt : uint) (w : W),
    outcome handle (supply c amt) w = Returned tt <->
    exists (u : address) (w1 : W) (ok : bool) (w2 w3 : W),
      handle (CToken_underlying c) w = Some (u, w1) /\
      handle (IERC20_approve u c amt) w1 = Some (ok, w2) /\
      handle (CToken_mint c amt) w2 = Some (0, w3).
Proof.
  intros W handle c amt w. unfold outcome. rewrite exec_supply. split.
  - destruct (handle (CToken_underlying c) w) as [[u w1] |] eqn:Hu;
      [ | discriminate ].
    destruct (handle (IERC20_approve u c amt) w1) as [[ok w2] |] eqn:Ha;
      [ | discriminate ].
    destruct (handle (CToken_mint c amt) w2) as [[code w3] |] eqn:Hm;
      [ | discriminate ].
    simpl. unfold checked.
    destruct (N.eqb_spec code 0) as [-> | _]; [ | discriminate ].
    intros _. exists u, w1, ok, w2, w3. auto.
  - intros (u & w1 & ok & w2 & w3 & Hu & Ha & Hm).
    rewrite Hu, Ha, Hm. reflexivity.
Qed.

Lemma supply_succeeds_iff_mint_code_zero_funded :
  outcome Pool.handle (supply cDAI 10) funded = Returned tt.
Proof.
  apply (proj2 (supply_succeeds_iff_mint_code_zero Pool.State Pool.handle
                  cDAI 10 funded)).
  exists DAI, funded, true, funded,
    (Pool.with_cash 5010 (Pool.with_supplied 1010 funded)).
  repeat split.
Defined.

(** X2.  supply does not look at what approve returns: when the token
    answers the approval with false, the mint is still issued, and the
    outcome is the verdict on the market's code alone. *)
Theorem supply_ignores_approve_result :
  forall (W : Type) (handle : forall c : Call, W -> option (Resp c * W))
         (c : address) (amt : uint) (w w1 w2 w3 : W) (u : address)
         (code : uint),
    handle (CToken_underlying c) w = Some (u, w1) ->
    handle (IERC20_approve u c amt) w1 = Some (false, w2) ->
    handle (CToken_mint c amt) w2 = Some (code, w3) ->
    exec handle (supply c amt) w =
      (checked code mint_failed,
       [CToken_underlying c; IERC20_approve u c amt; CToken_mint c amt], w3).
Proof.
  intros W handle c amt w w1 w2 w3 u code Hu Ha Hm.
  rewrite exec_supply, Hu, Ha, Hm. reflexivity.
Qed.

Lemma supply_ignores_approve_result_unapproving :
  unapproving (IERC20_approve DAI cDAI 10) funded = Some (false, funded) /\
  exec unapproving (supply cDAI 10) funded =
    (Returned tt,
     [CToken_underlying cDAI; IERC20_approve DAI cDAI 10; CToken_mint cDAI 10],
     Pool.with_cash 5010 (Pool.with_supplied 1010 funded)).
Proof.
  split; [ reflexivity | ].
  exact (supply_ignores_approve_result Pool.State unapproving cDAI 10
           funded funded funded
           (Pool.with_cash 5010 (Pool.with_supplied 1010 funded)) DAI 0
           eq_refl eq_refl eq_refl).
Defined.

(** X3.  Whatever the other contracts answer, every call that supply,
    redeem, enterMarket, borrow or repayBorrow issues concerns the market the
    caller named and carries the caller's amount unchanged: an approval
    names that market as the spender for exactly that amount, enterMarket
    submits that market alone to the stored comptroller, and none of them
    queries the liquidity or the price. *)
Theorem requests_carry_arguments :
  forall (W : Type) (handle : forall c : Call, W -> option (Resp c * W))
         (st : Storage) (result : uint) (c : address) (amt : uint) (w : W),
    Forall
      (fun p : Prog unit =>
         Forall (carries (comptroller st) c amt) (calls handle p w))
      (requests st result c amt).
Proof.
  intros W handle st result c amt w.
  unfold requests, calls.
  repeat apply Forall_cons; [ | | | | | apply Forall_nil ].
  - rewrite exec_supply.
    destruct (handle (CToken_underlying c) w) as [[u w1] |]; simpl.
    + destruct (handle (IERC20_approve u c amt) w1) as [[ok w2] |]; simpl.
      * destruct (handle (CToken_mint c amt) w2) as [[code w3] |]; simpl;
          repeat constructor.
      * repeat constructor.
    + repeat constructor.
  - rewrite exec_redeem.
    destruct (handle (CToken_redeem c amt) w) as [[code w1] |]; simpl;
      repeat constructor.
  - rewrite exec_enterMarket.
    destruct (handle (Comptroller_enterMarkets (comptroller st) [c]) w)
      as [[codes w1] |]; simpl; repeat constructor.
  - rewrite exec_borrow.
    destruct (handle (CToken_underlying c) w) as [[u w1] |]; simpl.
    + destruct (handle (CToken_borrow c amt) w1) as [[code w2] |]; simpl;
        repeat constructor.
    + repeat constructor.
  - rewrite exec_repayBorrow.
    destruct (handle (CToken_underlying c) w) as [[u w1] |]; simpl.
    + destruct (handle (IERC20_approve u c amt) w1) as [[ok w2] |]; simpl.
      * destruct (handle (CToken_repayBorrow c amt) w2) as [[code w3] |];
          simpl; repeat constructor.
      * repeat constructor.
    + repeat constructor.
Qed.

(** X4.  supply, borrow and repayBorrow begin by asking the market for its
    underlying token; when that call reverts (a market without an
    underlying() function) each of them fails on it and nothing else is
    called.  redeem and enterMarket never make that call. *)
Theorem underlying_revert_blocks_request :
  forall (W : Type) (handle : forall c : Call, W -> option (Resp c * W))
         (st : Storage) (result : uint) (c : address) (amt : uint) (w : W),
    handle (CToken_underlying c) w = None ->
    exec handle (supply c amt) w =
      (Failed (CalleeReverted (CToken_underlying c)),
       [CToken_underlying c], w) /\
    exec handle (borrow c amt) w =
      (Failed (CalleeReverted (CToken_underlying c)),
       [CToken_underlying c], w) /\
    exec handle (repayBorrow result c amt) w =
      (Failed (CalleeReverted (CToken_underlying c)),
       [CToken_underlying c], w) /\
    ~ In (CToken_underlying c) (calls handle (redeem c amt) w) /\
    ~ In (CToken_underlying c) (calls handle (enterMarket st result c) w).
Proof.
  intros W handle st result c amt w Hu.
  rewrite exec_supply, exec_borrow, exec_repayBorrow, Hu.
  repeat split.
  - unfold calls. rewrite exec_redeem.
    destruct (handle (CToken_redeem c amt) w) as [[code w1] |]; simpl;
      intros [H | []]; discriminate H.
  - unfold calls. rewrite exec_enterMarket.
    destruct (handle (Comptroller_enterMarkets (comptroller st) [c]) w)
      as [[codes w1] |]; simpl; intros [H | []]; discriminate H.
Qed.

Lemma underlying_revert_blocks_request_cETH :
  Pool.handle (CToken_underlying cETH) funded = None /\
  exec Pool.handle (borrow cETH 5) funded =
    (Failed (CalleeReverted (CToken_underlying cETH)),
     [CToken_underlying cETH], funded).
Proof.
  split; [ reflexivity | ].
  exact (proj1 (proj2 (underlying_revert_blocks_request Pool.State Pool.handle
                         deployed 0 cETH 5 funded eq_refl))).
Defined.

(** ** Further properties of the max-borrow query *)

(** X5.  getMaxBorrow only reads: whatever the other contracts answer, it
    issues the liquidity query for its own address to the stored
    comptroller, then at most the price query for the asset to the stored
    oracle, and never a call that changes a token or the market. *)
Theorem getMaxBorrow_only_reads :
  forall (W : Type) (handle : forall c : Call, W -> option (Resp c * W))
         (this : address) (st : Storage) (c : address) (w : W),
    let q := Comptroller_getAccountLiquidity (comptroller st) this in
    let o := PriceOracle_getUnderlyingPrice (priceOracle st) c in
    (calls handle (getMaxBorrow this st c) w = [q] \/
     calls handle (getMaxBorrow this st c) w = [q; o]) /\
    forallb view (calls handle (getMaxBorrow this st c) w) = true.
Proof.
  intros W handle this st c w q o.
  unfold calls. rewrite exec_getMaxBorrow. fold q o.
  destruct (handle q w) as [[[[code liq] sf] w1] |]; [ | auto ].
  destruct (negb (code =? 0)); [ auto | ].
  destruct (negb (sf =? 0)); [ auto | ].
  destruct (negb (0 <? liq)); [ auto | ].
  destruct (handle o w1) as [[price w2] |]; auto.
Qed.

(** X6.  When the comptroller answers the liquidity query with a non-zero
    code, getMaxBorrow fails with the reason "comptroller#getAccountLiquidity()
    failed ..." whatever liquidity and shortfall came with the code, and
    the oracle is not asked. *)
Theorem getMaxBorrow_checks_comptroller_code :
  forall (W : Type) (handle : forall c : Call, W -> option (Resp c * W))
         (this : address) (st : Storage) (c : address) (w w1 : W)
         (code liq sf : uint),
    let q := Comptroller_getAccountLiquidity (comptroller st) this in
    handle q w = Some ((code, liq, sf), w1) ->
    code <> 0 ->
    exec handle (getMaxBorrow this st c) w =
      (Failed (RequireFailed getAccountLiquidity_failed), [q], w1).
Proof.
  intros W handle this st c w w1 code liq sf q Hq Hcode.
  rewrite exec_getMaxBorrow. fold q. rewrite Hq.
  apply N.eqb_neq in Hcode. rewrite Hcode. reflexivity.
Qed.

(** X7.  Whenever getMaxBorrow returns an amount, that amount is the
    largest one whose value at the oracle's price does not exceed the
    liquidity the comptroller reported: its value is within the liquidity,
    the value of one unit more is above it. *)
Theorem getMaxBorrow_largest_affordable :
  forall (W : Type) (handle : forall c : Call, W -> option (Resp c * W))
         (this : address) (st : Storage) (c : address) (w : W) (v : uint),
    outcome handle (getMaxBorrow this st c) w = Returned v ->
    exists (liq price : uint) (w1 w2 : W),
      handle (Comptroller_getAccountLiquidity (comptroller st) this) w =
        Some ((0, liq, 0), w1) /\
      handle (PriceOracle_getUnderlyingPrice (priceOracle st) c) w1 =
        Some (price, w2) /\
      v * price <= liq /\ liq < (v + 1) * price /\
      forall a : uint, a * price <= liq -> a <= v.
Proof.
  intros W handle this st c w v. unfold outcome.
  rewrite exec_getMaxBorrow.
  destruct (handle (Comptroller_getAccountLiquidity (comptroller st) this) w)
    as [[[[code liq] sf] w1] |] eqn:Hq; [ | discriminate ].
  destruct (N.eqb_spec code 0) as [-> | _]; simpl; [ | discriminate ].
  destruct (N.eqb_spec sf 0) as [-> | _]; simpl; [ | discriminate ].
  destruct (0 <? liq); simpl; [ | discriminate ].
  destruct (handle (PriceOracle_getUnderlyingPrice (priceOracle st) c) w1)
    as [[price w2] |] eqn:Ho; [ | discriminate ].
  simpl. destruct (N.eqb_spec price 0) as [_ | Hprice]; [ discriminate | ].
  intros H. injection H as <-.
  exists liq, price, w1, w2.
  split; [ reflexivity | split; [ exact Ho | ] ].
  split; [ | split ].
  - rewrite N.mul_comm. apply N.Div0.mul_div_le.
  - rewrite N.add_1_r, N.mul_comm. apply N.mul_succ_div_gt. exact Hprice.
  - intros a Ha. apply N.div_le_lower_bound; [ exact Hprice | ].
    rewrite N.mul_comm. exact Ha.
Qed.

Lemma getMaxBorrow_checks_comptroller_code_priceless :
  exec priceless (getMaxBorrow vault deployed cDAI) funded =
    (Failed (RequireFailed getAccountLiquidity_failed),
     [Comptroller_getAccountLiquidity unitroller vault], funded).
Proof.
  apply (getMaxBorrow_checks_comptroller_code Pool.State priceless vault
           deployed cDAI funded funded 13 0 0 eq_refl).
  discriminate.
Defined.

Lemma getMaxBorrow_largest_affordable_pricey :
  exists (liq price : uint) (w1 w2 : Pool.State),
    Pool.handle (Comptroller_getAccountLiquidity unitroller vault) pricey =
      Some ((0, liq, 0), w1) /\
    Pool.handle (PriceOracle_getUnderlyingPrice feed cDAI) w1 =
      Some (price, w2) /\
    749 * price <= liq /\ liq < (749 + 1) * price /\
    forall a : uint, a * price <= liq -> a <= 749.
Proof.
  exact (getMaxBorrow_largest_affordable Pool.State Pool.handle vault
           deployed cDAI pricey 749 eq_refl).
Defined.

Lemma enterMarket_ignores_codes_unlisted :
  Pool.handle (Comptroller_enterMarkets unitroller [cETH]) funded =
    Some ([9], funded) /\
  exec Pool.handle (enterMarket deployed 0 cETH) funded =
    (Returned tt, [Comptroller_enterMarkets unitroller [cETH]], funded).
Proof.
  split; [ reflexivity | ].
  exact (enterMarket_ignores_codes Pool.State Pool.handle deployed 0 cETH
           funded funded [9] eq_refl).
Defined.

(** ** The HTTP client *)

Section ApiFacts.

Context {Options Json : Type}.
Variable request : Api.Request Options -> Api.RequestState.
Variable parse : string -> Json + string.

Lemma prefix_append (p t : string) : String.prefix p (p ++ t)%string = true.
Proof.
  induction p as [| a p IH]; simpl.
  - destruct t; reflexivity.
  - destruct (Ascii.ascii_dec a a) as [_ | H]; [ exact IH | ].
    exfalso; apply H; reflexivity.
Qed.

Lemma onRejected_thrown (pre : string) (rc : option Z) (rm : option string)
  (name : option string) (text : string) :
  exists message : string,
    Api.onRejected (Json := Json) pre rc rm (Api.Thrown name text) =
      Api.Rejected {| Api.error := message; Api.responseCode := rc;
                      Api.responseMessage := rm |} /\
    (message = (pre ++ "Unable to parse response body.")%string \/
     message = (pre ++ text)%string).
Proof.
  unfold Api.onRejected.
  destruct name as [n |]; [ destruct (String.eqb n "SyntaxError") | ];
    eexists; split; try reflexivity; auto.
Qed.

(** X9.  queryApi resolves exactly when the request is answered, the body
    of the answer parses as JSON and the status lies in 200..299; it then
    resolves with the parsed body. *)
Theorem queryApi_resolves_iff :
  forall (options : Options) (name path : string) (v : Json),
    Api.queryApi request parse options name path = Api.Resolved v <->
    exists response : Api.Response,
      request (apiRequest options path) = Api.Fulfilled response /\
      parse (Api.body response) = inl v /\
      (200 <= Api.status response <= 299)%Z.
Proof.
  intros options name path v. unfold Api.queryApi.
  change (request _) with (request (apiRequest options path)).
  destruct (request (apiRequest options path)) as [response | e |] eqn:Hr.
  - destruct (parse (Api.body response)) as [j | text] eqn:Hp.
    + destruct ((200 <=? Api.status response)
                && (Api.status response <=? 299))%Z eqn:Hs.
      * apply andb_true_iff in Hs. destruct Hs as [H1 H2].
        apply Z.leb_le in H1. apply Z.leb_le in H2. split.
        -- intros H. injection H as ->. exists response. auto.
        -- intros (r & Hr' & Hp' & _). injection Hr' as <-.
           rewrite Hp in Hp'. injection Hp' as ->. reflexivity.
      * split; [ discriminate | ].
        intros (r & Hr' & _ & H1 & H2). injection Hr' as <-.
        apply Z.leb_le in H1. apply Z.leb_le in H2.
        rewrite H1, H2 in Hs. discriminate Hs.
    + split; [ discriminate | ].
      intros (r & Hr' & Hp' & _). injection Hr' as <-.
      rewrite Hp in Hp'. discriminate Hp'.
  - split.
    + destruct e as [| nm text]; [ discriminate | ].
      destruct (onRejected_thrown (errorPrefix name) None None nm text)
        as (m & Hm & _).
      fold (errorPrefix name). rewrite Hm. discriminate.
    + intros (r & Hr' & _). discriminate Hr'.
  - split; [ discriminate | ].
    intros (r & Hr' & _). discriminate Hr'.
Qed.

(** What [queryApi] does in each of the four cases that do not resolve. *)
Lemma queryApi_cases (options : Options) (name path : string) :
  match request (apiRequest options path) with
  | Api.Unsettled | Api.Broken Api.Nullish =>
      Api.queryApi request parse options name path = Api.Pending
  | Api.Broken (Api.Thrown nm text) =>
      exists message : string,
        Api.queryApi request parse options name path =
          Api.Rejected {| Api.error := message; Api.responseCode := None;
                          Api.responseMessage := None |} /\
        (message = (errorPrefix name ++ "Unable to parse response body.")%string
         \/ message = (errorPrefix name ++ text)%string)
  | Api.Fulfilled response =>
      match parse (Api.body response) with
      | inr _ =>
          Api.queryApi request parse options name path =
            Api.Rejected
              {| Api.error :=
                   (errorPrefix name ++ "Unable to parse response body.")%string;
                 Api.responseCode := Some (Api.status response);
                 Api.responseMessage := Some (Api.statusText response) |}
      | inl v =>
          if ((200 <=? Api.status response)
              && (Api.status response <=? 299))%Z
          then Api.queryApi request parse options name path = Api.Resolved v
          else Api.queryApi request parse options name path =
                 Api.Rejected
                   {| Api.error :=
                        (errorPrefix name
                         ++ "Invalid request made to the Compound API.")%string;
                      Api.responseCode := Some (Api.status response);
                      Api.responseMessage := Some (Api.statusText response) |}
      end
  end.
Proof.
  unfold Api.queryApi.
  change (request _) with (request (apiRequest options path)).
  fold (errorPrefix name).
  destruct (request (apiRequest options path)) as [response | e |].
  - destruct (parse (Api.body response)) as [v | text]; [ | reflexivity ].
    destruct ((200 <=? Api.status response)
              && (Api.status response <=? 299))%Z; reflexivity.
  - destruct e as [| nm text]; [ reflexivity | ].
    apply onRejected_thrown.
  - reflexivity.
Qed.

(** X10.  Every rejection of queryApi carries a message that begins with
    "Compound [api] [name] | " for the service name, followed by "Unable to
    parse response body.", by "Invalid request made to the Compound API." or
    by the string form of the reason the request itself was rejected with. *)
Theorem queryApi_rejection_prefixed :
  forall (options : Options) (name path : string) (r : Api.Rejection),
    Api.queryApi request parse options name path = Api.Rejected r ->
    String.prefix (errorPrefix name) (Api.error r) = true /\
    (Api.error r =
       (errorPrefix name ++ "Unable to parse response body.")%string \/
     Api.error r =
       (errorPrefix name ++ "Invalid request made to the Compound API.")%string
     \/
     exists (nm : option string) (text : string),
       request (apiRequest options path) = Api.Broken (Api.Thrown nm text) /\
       Api.error r = (errorPrefix name ++ text)%string).
Proof.
  intros options name path r H.
  pose proof (queryApi_cases options name path) as C.
  assert (forms :
    Api.error r =
      (errorPrefix name ++ "Unable to parse response body.")%string \/
    Api.error r =
      (errorPrefix name ++ "Invalid request made to the Compound API.")%string
    \/
    exists (nm : option string) (text : string),
      request (apiRequest options path) = Api.Broken (Api.Thrown nm text) /\
      Api.error r = (errorPrefix name ++ text)%string).
  { destruct (request (apiRequest options path)) as [response | e |].
    - destruct (parse (Api.body response)) as [v | text].
      + destruct ((200 <=? Api.status response)
                  && (Api.status response <=? 299))%Z;
          rewrite C in H; [ discriminate H | ].
        injection H as <-. right; left; reflexivity.
      + rewrite C in H. injection H as <-. left; reflexivity.
    - destruct e as [| nm text]; [ rewrite C in H; discriminate H | ].
      destruct C as (m & Hm & Hform). rewrite Hm in H. injection H as <-.
      destruct Hform as [-> | ->]; [ left; reflexivity | ].
      right; right. exists nm, text. auto.
    - rewrite C in H. discriminate H. }
  split; [ | exact forms ].
  destruct forms as [-> | [-> | (nm & text & _ & ->)]]; apply prefix_append.
Qed.

(** X11.  The body is parsed before the status is looked at: when the body
    of the answer is not JSON, queryApi rejects with "Unable to parse
    response body." whatever the status, an error status included, and the
    rejection carries the status and its text. *)
Theorem queryApi_parse_before_status :
  forall (options : Options) (name path : string) (response : Api.Response)
         (text : string),
    request (apiRequest options path) = Api.Fulfilled response ->
    parse (Api.body response) = inr text ->
    Api.queryApi request parse options name path =
      Api.Rejected
        {| Api.error :=
             (errorPrefix name ++ "Unable to parse response body.")%string;
           Api.responseCode := Some (Api.status response);
           Api.responseMessage := Some (Api.statusText response) |}.
Proof.
  intros options name path response text Hr Hp.
  pose proof (queryApi_cases options name path) as C.
  rewrite Hr, Hp in C. exact C.
Qed.

(** X12.  A rejection carries the status and the status text of the answer
    whenever the request was answered, and neither of them when the request
    itself was rejected. *)
Theorem queryApi_rejection_carries_status :
  forall (options : Options) (name path : string) (r : Api.Rejection),
    Api.queryApi request parse options name path = Api.Rejected r ->
    match request (apiRequest options path) with
    | Api.Fulfilled response =>
        Api.responseCode r = Some (Api.status response) /\
        Api.responseMessage r = Some (Api.statusText response)
    | _ => Api.responseCode r = None /\ Api.responseMessage r = None
    end.
Proof.
  intros options name path r H.
  pose proof (queryApi_cases options name path) as C.
  destruct (request (apiRequest options path)) as [response | e |].
  - destruct (parse (Api.body response)) as [v | text].
    + destruct ((200 <=? Api.status response)
                && (Api.status response <=? 299))%Z;
        rewrite C in H; [ discriminate H | ].
      injection H as <-. split; reflexivity.
    + rewrite C in H. injection H as <-. split; reflexivity.
  - destruct e as [| nm text]; [ rewrite C in H; discriminate H | ].
    destruct C as (m & Hm & _). rewrite Hm in H. injection H as <-.
    split; reflexivity.
  - rewrite C in H. discriminate H.
Qed.


(** X14.  An answer that parses but whose status lies outside 200..299 is
    rejected with "Invalid request made to the Compound API."; the parsed
    body is dropped and the rejection carries the status and its text. *)
Theorem queryApi_rejects_other_status :
  forall (options : Options) (name path : string) (response : Api.Response)
         (v : Json),
    request (apiRequest options path) = Api.Fulfilled response ->
    parse (Api.body response) = inl v ->
    (Api.status response < 200 \/ 299 < Api.status response)%Z ->
    Api.queryApi request parse options name path =
      Api.Rejected
        {| Api.error :=
             (errorPrefix name
              ++ "Invalid request made to the Compound API.")%string;
           Api.responseCode := Some (Api.status response);
           Api.responseMessage := Some (Api.statusText response) |}.
Proof.
  intros options name path response v Hr Hp Hs.
  pose proof (queryApi_cases options name path) as C.
  rewrite Hr, Hp in C.
  assert (E : ((200 <=? Api.status response)
               && (Api.status response <=? 299))%Z = false).
  { apply andb_false_iff.
    destruct Hs as [Hs | Hs]; [ left | right ]; apply Z.leb_gt; exact Hs. }
  rewrite E in C. exact C.
Qed.

(** X15.  governance knows two endpoint names, "proposals" and
    "voteReceipts"; every other name, the empty one and one in another
    letter case included, is served as the accounts endpoint. *)
Theorem governance_other_endpoint_is_accounts :
  forall (options : Options) (endpoint : string),
    endpoint <> "proposals" -> endpoint <> "voteReceipts" ->
    Api.governance request parse options endpoint =
      Api.queryApi request parse options "GovernanceService"
        "/api/v2/governance/accounts" /\
    Api.governance request parse options endpoint =
      Api.governance request parse options "accounts".
Proof.
  intros options endpoint Hp Hv.
  apply String.eqb_neq in Hp. apply String.eqb_neq in Hv.
  unfold Api.governance. rewrite Hp, Hv. split; reflexivity.
Qed.

End ApiFacts.

Lemma queryApi_resolves_iff_account :
  Api.account demoServer demoParse tt = Api.Resolved "{}".
Proof.
  apply (proj2 (queryApi_resolves_iff demoServer demoParse tt "account"
                  "/api/v2/account" "{}")).
  exists {| Api.status := 200%Z; Api.statusText := "OK"; Api.body := "{}" |}.
  split; [ reflexivity | split; [ reflexivity | simpl; lia ] ].
Defined.

Lemma queryApi_rejection_prefixed_marketHistory :
  Api.marketHistory demoServer demoParse tt =
    Api.Rejected
      {| Api.error :=
           "Compound [api] [Market History] | Error: connect ECONNREFUSED";
         Api.responseCode := None; Api.responseMessage := None |} /\
  String.prefix "Compound [api] [Market History] | "
    "Compound [api] [Market History] | Error: connect ECONNREFUSED" = true.
Proof.
  split; [ reflexivity | ].
  exact (proj1 (queryApi_rejection_prefixed demoServer demoParse tt
                  "Market History" "/api/v2/market_history/graph" _ eq_refl)).
Defined.

Lemma queryApi_parse_before_status_cToken :
  Api.cToken demoServer demoParse tt =
    Api.Rejected
      {| Api.error :=
           "Compound [api] [cToken] | Unable to parse response body.";
         Api.responseCode := Some 502%Z;
         Api.responseMessage := Some "Bad Gateway" |}.
Proof.
  exact (queryApi_parse_before_status demoServer demoParse tt "cToken"
           "/api/v2/ctoken"
           {| Api.status := 502%Z; Api.statusText := "Bad Gateway";
              Api.body := "<html>" |}
           "SyntaxError: Unexpected token < in JSON at position 0"
           eq_refl eq_refl).
Defined.

Lemma queryApi_rejection_carries_status_cToken :
  Api.cToken demoServer demoParse tt =
    Api.Rejected
      {| Api.error :=
           "Compound [api] [cToken] | Unable to parse response body.";
         Api.responseCode := Some 502%Z;
         Api.responseMessage := Some "Bad Gateway" |} /\
  Api.marketHistory demoServer demoParse tt =
    Api.Rejected
      {| Api.error :=
           "Compound [api] [Market History] | Error: connect ECONNREFUSED";
         Api.responseCode := None; Api.responseMessage := None |}.
Proof.
  pose proof (queryApi_rejection_carries_status demoServer demoParse tt
                "cToken" "/api/v2/ctoken") as answered.
  pose proof (queryApi_rejection_carries_status demoServer demoParse tt
                "Market History" "/api/v2/market_history/graph") as broken.
  unfold Api.cToken, Api.marketHistory.
  destruct (Api.queryApi demoServer demoParse tt "cToken" "/api/v2/ctoken")
    as [v | [message code text] |] eqn:E1; try discriminate E1.
  destruct (Api.queryApi demoServer demoParse tt "Market History"
              "/api/v2/market_history/graph")
    as [v | [message' code' text'] |] eqn:E2; try discriminate E2.
  destruct (answered _ eq_refl) as [Hc Ht].
  destruct (broken _ eq_refl) as [Hc' Ht'].
  simpl in Hc, Ht, Hc', Ht'. subst.
  injection E1 as <-. injection E2 as <-. split; reflexivity.
Defined.


Lemma queryApi_rejects_other_status_accounts :
  Api.governance demoServer demoParse tt "accounts" =
    Api.Rejected
      {| Api.error :=
           "Compound [api] [GovernanceService] | Invalid request made to the Compound API.";
         Api.responseCode := Some 404%Z;
         Api.responseMessage := Some "Not Found" |}.
Proof.
  apply (queryApi_rejects_other_status demoServer demoParse tt
           "GovernanceService" "/api/v2/governance/accounts"
           {| Api.status := 404%Z; Api.statusText := "Not Found";
              Api.body := "null" |} "null" eq_refl eq_refl).
  right. reflexivity.
Defined.

Lemma governance_other_endpoint_is_accounts_Proposals :
  Api.governance demoServer demoParse tt "Proposals" =
    Api.queryApi demoServer demoParse tt "GovernanceService"
      "/api/v2/governance/accounts" /\
  Api.governance demoServer demoParse tt "Proposals" =
    Api.governance demoServer demoParse tt "accounts".
Proof.
  apply (governance_other_endpoint_is_accounts demoServer demoParse tt
           "Proposals"); discriminate.
Defined.
